(** * mev-boost-relay: validator registry and payload cache

    A shallow embedding of the relay's validator service
    ([BeaconClientValidatorService] with [IsValidator], [NumValidators],
    [FetchValidators], [fetchAllValidators] and [fetchBeacon]) and of the
    payload cache exercised by [TestMemcached], with the properties the
    specification states about them.

    Go's standard library is not part of the repository; the functions
    the service calls ([strings.ToLower], [json.Unmarshal], [net/http])
    are modelled after their package documentation, the network and the
    Unicode case tables being parameters of the development. *)

From Stdlib Require Import ZArith Lia List Bool Ascii String.
From stdpp Require Import base gmap strings list fin_maps pretty.

Local Open Scope Z_scope.
Set Warnings "-register-all".

(** ** Bytes and Go strings

    A Go string is a sequence of bytes; it is embedded as [string], a
    byte being an [ascii] read through [byteZ]. *)

Module GoString.

Definition byteZ (c : ascii) : Z := Z.of_N (N_of_ascii c).

(** [byte(x)]: conversion of an integer to a byte keeps the low 8 bits. *)
Definition zbyte (z : Z) : ascii := ascii_of_N (Z.to_N (z mod 256)).

Fixpoint drop (n : nat) (s : string) : string :=
  match n, s with
  | S k, String _ t => drop k t
  | _, _ => s
  end.

Fixpoint map (f : ascii -> ascii) (s : string) : string :=
  match s with
  | EmptyString => EmptyString
  | String c t => String (f c) (map f t)
  end.

Fixpoint forallb (f : ascii -> bool) (s : string) : bool :=
  match s with
  | EmptyString => true
  | String c t => f c && forallb f t
  end.

Fixpoint existsb (f : ascii -> bool) (s : string) : bool :=
  match s with
  | EmptyString => false
  | String c t => f c || existsb f t
  end.

(** *** unicode/utf8 *)

Definition RuneError : Z := 0xFFFD.
Definition RuneSelf : Z := 0x80.
Definition MaxRune : Z := 0x10FFFF.
Definition surrogateMin : Z := 0xD800.
Definition surrogateMax : Z := 0xDFFF.

Definition t2 : Z := 0xC0.
Definition t3 : Z := 0xE0.
Definition t4 : Z := 0xF0.
Definition tx : Z := 0x80.
Definition maskx : Z := 0x3F.
Definition mask2 : Z := 0x1F.
Definition mask3 : Z := 0x0F.
Definition mask4 : Z := 0x07.
Definition locb : Z := 0x80.
Definition hicb : Z := 0xBF.

(** The table [first] with [acceptRanges]: for a leading byte of a
    multi-byte sequence, the sequence's size and the range accepted for
    its second byte; [None] for ASCII and for invalid leading bytes. *)
Definition first (s0 : Z) : option (nat * Z * Z) :=
  if s0 <? 0xC2 then None
  else if s0 <=? 0xDF then Some (2%nat, locb, hicb)
  else if s0 =? 0xE0 then Some (3%nat, 0xA0, hicb)
  else if s0 <=? 0xEC then Some (3%nat, locb, hicb)
  else if s0 =? 0xED then Some (3%nat, locb, 0x9F)
  else if s0 <=? 0xEF then Some (3%nat, locb, hicb)
  else if s0 =? 0xF0 then Some (4%nat, 0x90, hicb)
  else if s0 <=? 0xF3 then Some (4%nat, locb, hicb)
  else if s0 =? 0xF4 then Some (4%nat, locb, 0x8F)
  else None.

(** [utf8.DecodeRuneInString]: the first rune of [s] and its width in
    bytes; an invalid or truncated encoding yields [(RuneError, 1)]. *)
Definition DecodeRuneInString (s : string) : Z * nat :=
  match s with
  | EmptyString => (RuneError, 0%nat)
  | String c0 r0 =>
    let s0 := byteZ c0 in
    if s0 <? RuneSelf then (s0, 1%nat)
    else
      match first s0 with
      | None => (RuneError, 1%nat)
      | Some (sz, lo, hi) =>
        if (String.length s <? sz)%nat then (RuneError, 1%nat)
        else
          match r0 with
          | EmptyString => (RuneError, 1%nat)
          | String c1 r1 =>
            let s1 := byteZ c1 in
            if (s1 <? lo) || (hi <? s1) then (RuneError, 1%nat)
            else if (sz <=? 2)%nat then
              (Z.lor (Z.shiftl (Z.land s0 mask2) 6) (Z.land s1 maskx), 2%nat)
            else
              match r1 with
              | EmptyString => (RuneError, 1%nat)
              | String c2 r2 =>
                let s2 := byteZ c2 in
                if (s2 <? locb) || (hicb <? s2) then (RuneError, 1%nat)
                else if (sz <=? 3)%nat then
                  (Z.lor (Z.lor (Z.shiftl (Z.land s0 mask3) 12)
                                (Z.shiftl (Z.land s1 maskx) 6))
                         (Z.land s2 maskx), 3%nat)
                else
                  match r2 with
                  | EmptyString => (RuneError, 1%nat)
                  | String c3 _ =>
                    let s3 := byteZ c3 in
                    if (s3 <? locb) || (hicb <? s3) then (RuneError, 1%nat)
                    else
                      (Z.lor (Z.lor (Z.lor (Z.shiftl (Z.land s0 mask4) 18)
                                           (Z.shiftl (Z.land s1 maskx) 12))
                                    (Z.shiftl (Z.land s2 maskx) 6))
                             (Z.land s3 maskx), 4%nat)
                  end
              end
          end
      end
  end.

Definition enc3 (r : Z) : string :=
  String (zbyte (Z.lor t3 (Z.shiftr r 12 mod 256)))
    (String (zbyte (Z.lor tx (Z.land (Z.shiftr r 6 mod 256) maskx)))
       (String (zbyte (Z.lor tx (Z.land (r mod 256) maskx))) EmptyString)).

(** [utf8.AppendRune] on an empty buffer: the UTF-8 encoding of [r]; a
    rune out of range or a surrogate half is written as [RuneError]. *)
Definition AppendRune (r : Z) : string :=
  let i := r mod 2 ^ 32 in
  if i <=? 0x7F then String (zbyte r) EmptyString
  else if i <=? 0x7FF then
    String (zbyte (Z.lor t2 (Z.shiftr r 6 mod 256)))
      (String (zbyte (Z.lor tx (Z.land (r mod 256) maskx))) EmptyString)
  else if (MaxRune <? i) || ((surrogateMin <=? i) && (i <=? surrogateMax))
  then enc3 RuneError
  else if i <=? 0xFFFF then enc3 r
  else
    String (zbyte (Z.lor t4 (Z.shiftr r 18 mod 256)))
      (String (zbyte (Z.lor tx (Z.land (Z.shiftr r 12 mod 256) maskx)))
         (String (zbyte (Z.lor tx (Z.land (Z.shiftr r 6 mod 256) maskx)))
            (String (zbyte (Z.lor tx (Z.land (r mod 256) maskx)))
               EmptyString))).

(** The runes a [for _, c := range s] loop visits. Every step consumes at
    least one byte, so [String.length s] steps exhaust [s]. *)
Fixpoint runes_from (steps : nat) (s : string) : list Z :=
  match steps with
  | O => []
  | S k =>
    match s with
    | EmptyString => []
    | String _ _ =>
      let '(c, w) := DecodeRuneInString s in c :: runes_from k (drop w s)
    end
  end.

Definition runes (s : string) : list Z := runes_from (String.length s) s.

(** [strings.Map]: every rune of [s] replaced by its image under
    [mapping], a negative image being dropped. *)
Definition Map (mapping : Z -> Z) (s : string) : string :=
  fold_right
    (fun c out =>
       let r := mapping c in
       if 0 <=? r then AppendRune r +:+ out else out)
    EmptyString (runes s).

Definition isUpperByte (c : ascii) : bool :=
  (0x41 <=? byteZ c) && (byteZ c <=? 0x5A).

(** ['A' <= c && c <= 'Z'] then [c += 'a' - 'A']. *)
Definition lowerByte (c : ascii) : ascii :=
  if isUpperByte c then zbyte (byteZ c + 0x20) else c.

Section Unicode.

(** [unicode.CaseRanges.ToLower], the table lookup for the runes above
    ASCII; the table is not part of the repository. *)
Variable caseRanges_ToLower : Z -> Z.

(** [unicode.ToLower]. *)
Definition unicode_ToLower (r : Z) : Z :=
  if r <=? 0x7F then
    if (0x41 <=? r) && (r <=? 0x5A) then r + 0x20 else r
  else caseRanges_ToLower r.

(** [strings.ToLower]: the ASCII-only path maps bytes, the other one
    maps runes. *)
Definition ToLower (s : string) : string :=
  if forallb (fun c => byteZ c <? RuneSelf) s then
    if negb (existsb isUpperByte s) then s else map lowerByte s
  else Map unicode_ToLower s.

End Unicode.

(** Two strings that differ at most in the case of ASCII letters: equal
    length and, byte by byte, equal after lower-casing the byte. *)
Inductive caseVariant : string -> string -> Prop :=
| caseVariant_nil : caseVariant EmptyString EmptyString
| caseVariant_cons c d s t :
    lowerByte c = lowerByte d -> caseVariant s t ->
    caseVariant (String c s) (String d t).

End GoString.

(** ** encoding/json

    [json.Unmarshal] first checks that its input is well-formed JSON and
    then stores the value read into the destination, driven by the
    destination's Go type. The first phase, the scanner, is a parameter
    of the development; its result is a JSON value [json], the object
    members in the order and with the repetitions of the text. The
    second phase is embedded below for the Go types of this package, as
    documented for [Unmarshal]. *)

Module GoJSON.

Import GoString.

Inductive json : Type :=
| JNull
| JBool (b : bool)
| JNumber (lit : string)
| JString (s : string)
| JArray (elems : list json)
| JObject (members : list (string * json)).

Inductive Kind : Type := KString | KInt | KSlice | KStruct.

(** [json.UnmarshalTypeError]: a JSON value not appropriate for a Go
    type; [Value] describes the JSON value, [Type] the Go type. *)
Record UnmarshalTypeError : Type :=
  { Value : string; Type_ : Kind }.

(** The errors [Unmarshal] returns. *)
Inductive fault : Type :=
| SyntaxError
| TypeError (e : UnmarshalTypeError).

(** The decoder's [savedError]: the earliest type error met so far;
    decoding goes on after it. *)
Definition saved : Type := option UnmarshalTypeError.

Definition saveError (e : UnmarshalTypeError) (s : saved) : saved :=
  match s with
  | None => Some e
  | Some _ => s
  end.

(** A Go type [Unmarshal] can store into: its zero value and [d.value],
    which stores a JSON value into a destination of the type. *)
Class Target (A : Type) : Type :=
  { zero : A;
    value : json -> A -> saved -> A * saved }.

Definition mismatch {A : Type} (what : string) (k : Kind)
    (v : A) (s : saved) : A * saved :=
  (v, saveError {| Value := what; Type_ := k |} s).

(** *** Strings *)

Definition string_value (j : json) (v : string) (s : saved)
    : string * saved :=
  match j with
  | JString x => (x, s)
  | JNull => (v, s)
  | JBool _ => mismatch "bool" KString v s
  | JNumber _ => mismatch "number" KString v s
  | JArray _ => mismatch "array" KString v s
  | JObject _ => mismatch "object" KString v s
  end.

#[export] Instance string_target : Target string :=
  {| zero := EmptyString; value := string_value |}.

(** *** Integers: [strconv.ParseInt(lit, 10, 64)] *)

Definition digit (c : ascii) : option Z :=
  let b := byteZ c in
  if (0x30 <=? b) && (b <=? 0x39) then Some (b - 0x30) else None.

Fixpoint digits (acc : Z) (s : string) : option Z :=
  match s with
  | EmptyString => Some acc
  | String c t =>
    match digit c with
    | Some d => digits (acc * 10 + d) t
    | None => None
    end
  end.

Definition ParseInt (s : string) : option Z :=
  let magnitude (t : string) :=
    match t with
    | EmptyString => None
    | String _ _ => digits 0 t
    end in
  let signed :=
    match s with
    | EmptyString => None
    | String c t =>
      if byteZ c =? 0x2D then option_map Z.opp (magnitude t)
      else if byteZ c =? 0x2B then magnitude t
      else magnitude s
    end in
  match signed with
  | Some n => if (- 2 ^ 63 <=? n) && (n <=? 2 ^ 63 - 1) then Some n else None
  | None => None
  end.

(** A Go [int], 64 bits wide. *)
Definition int_value (j : json) (v : Z) (s : saved) : Z * saved :=
  match j with
  | JNumber lit =>
    match ParseInt lit with
    | Some n => (n, s)
    | None => mismatch ("number " +:+ lit) KInt v s
    end
  | JNull => (v, s)
  | JBool _ => mismatch "bool" KInt v s
  | JString _ => mismatch "string" KInt v s
  | JArray _ => mismatch "array" KInt v s
  | JObject _ => mismatch "object" KInt v s
  end.

#[export] Instance int_target : Target Z :=
  {| zero := 0; value := int_value |}.

(** *** Slices

    "To unmarshal a JSON array into a slice, Unmarshal resets the slice
    length to zero and then appends each element to the slice"; [null]
    sets the slice to nil. Each element is decoded into a zero value,
    which is what the library does for a slice that is nil when the
    array is met, as the slice of a response is unless the body names
    the field twice. *)

Fixpoint array {A : Type} `{Target A} (elems : list json) (s : saved)
    : list A * saved :=
  match elems with
  | [] => ([], s)
  | j :: rest =>
    let '(x, s1) := value j zero s in
    let '(xs, s2) := array rest s1 in
    (x :: xs, s2)
  end.

Definition slice_value {A : Type} `{Target A} (j : json) (v : list A)
    (s : saved) : list A * saved :=
  match j with
  | JArray elems => array elems s
  | JNull => ([], s)
  | JBool _ => mismatch "bool" KSlice v s
  | JNumber _ => mismatch "number" KSlice v s
  | JString _ => mismatch "string" KSlice v s
  | JObject _ => mismatch "object" KSlice v s
  end.

#[export] Instance slice_target {A : Type} `{Target A} : Target (list A) :=
  {| zero := []; value := slice_value |}.

(** *** Structs

    "Unmarshal matches incoming object keys to the keys used by Marshal
    (either the struct field name or its tag), preferring an exact match
    but also accepting a case-insensitive match"; keys without a field
    are ignored. *)

Definition upperByte (c : ascii) : ascii :=
  let b := byteZ c in
  if (0x61 <=? b) && (b <=? 0x7A) then zbyte (b - 0x20) else c.

(** A name folded for the case-insensitive match: ASCII letters in upper
    case, and the two runes above ASCII whose case folding is an ASCII
    letter, U+017F (long s) and U+212A (Kelvin sign), as that letter. No
    other rune folds to ASCII, and the field names below are ASCII. *)
Fixpoint foldName (s : string) : string :=
  match s with
  | EmptyString => EmptyString
  | String c0 r0 =>
    let b0 := byteZ c0 in
    if b0 <? RuneSelf then String (upperByte c0) (foldName r0)
    else
      match r0 with
      | EmptyString => String c0 EmptyString
      | String c1 r1 =>
        if (b0 =? 0xC5) && (byteZ c1 =? 0xBF) then
          String (zbyte 0x53) (foldName r1)
        else
          match r1 with
          | EmptyString => String c0 (foldName r0)
          | String c2 r2 =>
            if (b0 =? 0xE2) && (byteZ c1 =? 0x84) && (byteZ c2 =? 0xAA)
            then String (zbyte 0x4B) (foldName r2)
            else String c0 (foldName r0)
          end
      end
  end.

Definition equalFold (name key : string) : bool :=
  String.eqb (foldName name) (foldName key).

(** The fields of a struct type [A]: JSON name and the store into the
    field, in declaration order. *)
Definition fields (A : Type) : Type :=
  list (string * (json -> A -> saved -> A * saved)).

Fixpoint index_where {A : Type} (p : A -> bool) (l : list A) : option nat :=
  match l with
  | [] => None
  | x :: rest =>
    if p x then Some O else option_map S (index_where p rest)
  end.

(** The field an object key selects among the JSON names of a struct's
    fields: the one of that very name, else the first one the key matches
    up to case. *)
Definition fieldIndex (names : list string) (key : string) : option nat :=
  match index_where (fun name => String.eqb name key) names with
  | Some i => Some i
  | None => index_where (fun name => equalFold name key) names
  end.

Definition findField {A : Type} (fs : fields A) (key : string)
    : option (json -> A -> saved -> A * saved) :=
  match fieldIndex (List.map fst fs) key with
  | Some i => option_map snd (nth_error fs i)
  | None => None
  end.

(** The member of an object that gives field [i] its value: the last one
    whose key selects the field; [None] when the object lacks the
    field. *)
Fixpoint member (names : list string) (i : nat)
    (members : list (string * json)) : option json :=
  match members with
  | [] => None
  | (key, j) :: rest =>
    match member names i rest with
    | Some j1 => Some j1
    | None =>
      match fieldIndex names key with
      | Some k => if Nat.eqb k i then Some j else None
      | None => None
      end
    end
  end.

Fixpoint object {A : Type} (fs : fields A) (members : list (string * json))
    (v : A) (s : saved) : A * saved :=
  match members with
  | [] => (v, s)
  | (key, j) :: rest =>
    let '(v1, s1) :=
      match findField fs key with
      | Some store => store j v s
      | None => (v, s)
      end in
    object fs rest v1 s1
  end.

Definition struct_value {A : Type} (fs : fields A) (j : json) (v : A)
    (s : saved) : A * saved :=
  match j with
  | JObject members => object fs members v s
  | JNull => (v, s)
  | JBool _ => mismatch "bool" KStruct v s
  | JNumber _ => mismatch "number" KStruct v s
  | JString _ => mismatch "string" KStruct v s
  | JArray _ => mismatch "array" KStruct v s
  end.

Section Unmarshal.

(** The scanner: [None] for a text that is not well-formed JSON. *)
Variable scan : string -> option json.

(** [json.Unmarshal(data, &v)]. *)
Definition Unmarshal {A : Type} `{Target A} (data : string) (v : A)
    : A * option fault :=
  match scan data with
  | None => (v, Some SyntaxError)
  | Some j =>
    let '(v1, s) := value j v None in
    (v1, option_map TypeError s)
  end.

End Unmarshal.

End GoJSON.

(** ** package server: the validator service *)

Module Server.

Import GoString GoJSON.

(** Go's [error] values, as far as this package makes or passes them. *)
Inductive error : Type :=
| errorString (text : string)
| wrapError (text : string) (err : error)
| transportError (text : string)
| jsonError (e : fault).

Inductive result (A : Type) : Type :=
| Ok (a : A)
| Err (err : error).
Arguments Ok {A} a.
Arguments Err {A} err.

(** [errors.New]. *)
Definition errors_New (text : string) : error := errorString text.

Record Request : Type :=
  { Method : string; URL : string; Header : list (string * string) }.

(** A response: the status code and what reading the body to its end
    yields. *)
Record Response : Type :=
  { StatusCode : Z; Body : result string }.

(** [req.Header.Set]. *)
Definition Header_Set (req : Request) (key val : string) : Request :=
  {| Method := Method req; URL := URL req;
     Header := (key, val)
                 :: List.filter (fun h => negb (String.eqb (fst h) key))
                      (Header req) |}.

(** [io.ReadAll(resp.Body)]. *)
Definition io_ReadAll (body : result string) : result string := body.

Record validator : Type := { Pubkey : string }.

Record validatorResponseEntry : Type := { Validator : validator }.

Record allValidatorsResponse : Type :=
  { Data : list validatorResponseEntry }.

(** The anonymous struct [fetchBeacon] reads a non-success body into. *)
Record errorContent : Type := { Code : Z; Message : string }.

Definition validator_fields : fields validator :=
  [("pubkey"%string,
    fun j v s => let '(x, s1) := value j (Pubkey v) s in
                 ({| Pubkey := x |}, s1))].

#[export] Instance validator_target : Target validator :=
  {| zero := {| Pubkey := EmptyString |};
     value := struct_value validator_fields |}.

Definition validatorResponseEntry_fields : fields validatorResponseEntry :=
  [("validator"%string,
    fun j v s => let '(x, s1) := value j (Validator v) s in
                 ({| Validator := x |}, s1))].

#[export] Instance validatorResponseEntry_target
    : Target validatorResponseEntry :=
  {| zero := {| Validator := zero |};
     value := struct_value validatorResponseEntry_fields |}.

Definition allValidatorsResponse_fields : fields allValidatorsResponse :=
  [("Data"%string,
    fun j v s => let '(x, s1) := value j (Data v) s in
                 ({| Data := x |}, s1))].

#[export] Instance allValidatorsResponse_target
    : Target allValidatorsResponse :=
  {| zero := {| Data := [] |};
     value := struct_value allValidatorsResponse_fields |}.

Definition errorContent_fields : fields errorContent :=
  [("code"%string,
    fun j v s => let '(x, s1) := value j (Code v) s in
                 ({| Code := x; Message := Message v |}, s1));
   ("message"%string,
    fun j v s => let '(x, s1) := value j (Message v) s in
                 ({| Code := Code v; Message := x |}, s1))].

#[export] Instance errorContent_target : Target errorContent :=
  {| zero := {| Code := 0; Message := EmptyString |};
     value := struct_value errorContent_fields |}.

Record BeaconClientValidatorService : Type :=
  { beaconEndpoint : string;
    validatorSet : gmap string validatorResponseEntry }.

Definition NewBeaconClientValidatorService (beaconEndpoint : string)
    : BeaconClientValidatorService :=
  {| beaconEndpoint := beaconEndpoint; validatorSet := ∅ |}.

Definition NumValidators (b : BeaconClientValidatorService) : Z :=
  Z.of_nat (size (validatorSet b)) mod 2 ^ 64.

Section World.

(** The world outside the repository: the Unicode case table, the JSON
    scanner, the text of the library's errors, and the network. *)
Variable caseRanges_ToLower : Z -> Z.
Variable scan : string -> option json.
Variable fault_text : fault -> string.
(** [http.NewRequest(method, url, nil)] refuses some methods and URLs. *)
Variable http_NewRequest_refuses : string -> string -> option error.
(** [http.DefaultClient.Do]. *)
Variable http_DefaultClient_Do : Request -> result Response.

(** [err.Error()]. *)
Definition Error (err : error) : string :=
  match err with
  | errorString text => text
  | wrapError text _ => text
  | transportError text => text
  | jsonError e => fault_text e
  end.

Definition http_NewRequest (method url : string) : result Request :=
  match http_NewRequest_refuses method url with
  | Some err => Err err
  | None => Ok {| Method := method; URL := url; Header := [] |}
  end.

(** The request [fetchBeacon] sends. *)
Definition beaconRequest (url method : string) : Request :=
  Header_Set {| Method := method; URL := url; Header := [] |}
    "accept" "application/json".

(** The source answers the request with a status and a body. *)
Definition responds (url method : string) (status : Z) (bodyBytes : string)
    : Prop :=
  http_NewRequest_refuses method url = None /\
  http_DefaultClient_Do (beaconRequest url method)
    = Ok {| StatusCode := status; Body := Ok bodyBytes |}.

(** The failing fetches of a validator set: a network error (a refused
    request, a refused connection, a body that cannot be read), a
    non-success response, a body that does not decode. *)
Inductive fetch_fails (url method : string) : Prop :=
| request_refused err :
    http_NewRequest_refuses method url = Some err -> fetch_fails url method
| client_refused err :
    http_NewRequest_refuses method url = None ->
    http_DefaultClient_Do (beaconRequest url method) = Err err ->
    fetch_fails url method
| body_unreadable status err :
    http_NewRequest_refuses method url = None ->
    http_DefaultClient_Do (beaconRequest url method)
      = Ok {| StatusCode := status; Body := Err err |} ->
    fetch_fails url method
| non_success status bodyBytes :
    responds url method status bodyBytes -> 300 <= status ->
    fetch_fails url method
| undecodable status bodyBytes e :
    responds url method status bodyBytes -> status < 300 ->
    snd (Unmarshal scan bodyBytes (zero : allValidatorsResponse)) = Some e ->
    fetch_fails url method.

(** The URL [fetchAllValidators] fetches. *)
Definition validatorsURL (endpoint : string) : string :=
  endpoint +:+ "/eth/v1/beacon/states/head/validators?status=active,pending".

Definition IsValidator (b : BeaconClientValidatorService) (pubkey : string)
    : bool :=
  let pkLower := ToLower caseRanges_ToLower pubkey in
  match validatorSet b !! pkLower with
  | Some _ => true
  | None => false
  end.

(** [fetchBeacon(url, method, dst)]: the destination after the call and
    the error returned, [None] for [nil]. *)
Definition fetchBeacon {A : Type} `{Target A} (url method : string) (dst : A)
    : A * option error :=
  match http_NewRequest method url with
  | Err err =>
    (dst, Some (wrapError ("invalid reqest for " +:+ url +:+ ": "
                             +:+ Error err) err))
  | Ok req =>
    let req := Header_Set req "accept" "application/json" in
    match http_DefaultClient_Do req with
    | Err err =>
      (dst, Some (wrapError ("client refused for " +:+ url +:+ ": "
                               +:+ Error err) err))
    | Ok resp =>
      match io_ReadAll (Body resp) with
      | Err err =>
        (dst, Some (wrapError ("could not read response body for " +:+ url
                                 +:+ ": " +:+ Error err) err))
      | Ok bodyBytes =>
        if StatusCode resp >=? 300 then
          let '(ec, err) := Unmarshal scan bodyBytes (zero : errorContent) in
          match err with
          | Some e =>
            (dst,
             Some (wrapError
                     ("could not unmarshal error response from beacon node for "
                        +:+ url +:+ " from " +:+ bodyBytes +:+ ": "
                        +:+ Error (jsonError e))
                     (jsonError e)))
          | None => (dst, Some (errors_New (Message ec)))
          end
        else
          let '(dst1, err) := Unmarshal scan bodyBytes dst in
          match err with
          | Some e =>
            (dst1,
             Some (wrapError
                     ("could not unmarshal response for " +:+ url +:+ " from "
                        +:+ bodyBytes +:+ ": " +:+ Error (jsonError e))
                     (jsonError e)))
          | None => (dst1, None)
          end
      end
    end
  end.

Definition fetchAllValidators (endpoint : string)
    : allValidatorsResponse * option error :=
  let uri :=
    endpoint +:+ "/eth/v1/beacon/states/head/validators?status=active,pending" in
  let vd : allValidatorsResponse := zero in
  fetchBeacon uri "GET" vd.

(** [FetchValidators]: the service after the call and the error
    returned. *)
Definition FetchValidators (b : BeaconClientValidatorService)
    : BeaconClientValidatorService * option error :=
  let '(vd, err) := fetchAllValidators (beaconEndpoint b) in
  match err with
  | Some e => (b, Some e)
  | None =>
    let newValidatorSet :=
      fold_left
        (fun (m : gmap string validatorResponseEntry) vs =>
           let pkLower := ToLower caseRanges_ToLower (Pubkey (Validator vs)) in
           <[pkLower := vs]> m)
        (Data vd) ∅ in
    ({| beaconEndpoint := beaconEndpoint b;
        validatorSet := newValidatorSet |}, None)
  end.

End World.

End Server.

(** ** package datastore: the payload cache

    [TestMemcached] exercises [SaveExecutionPayload] and
    [GetExecutionPayload] of a [Memcached] value; the file that
    implements them is not among the sources. *)

Module Datastore.

Import GoString.

(** Modelled from the spec: the protocol-fork variants a payload can
    belong to (the type of versioned payloads is missing); the variants
    are the forks the repository's scripts configure. *)
Inductive ForkVariant : Type := Bellatrix | Capella | Deneb.

(** Modelled from the spec: a fork-versioned execution payload (its
    type is missing), an opaque body under an optional fork variant;
    [None] is a payload of no recognized variant. *)
Record Payload : Type :=
  { Version : option ForkVariant; ExecutionBody : string }.

(** Modelled from the spec: the error kinds of section 7 that the cache
    returns (the errors of the missing implementation). *)
Inductive error : Type := InvalidInput | StoreUnavailable | DecodeError.

(** Modelled from the spec: the Expiring Key-Value Store of section 6
    (the memcached client is missing): under a key, a value and the
    instant its time-to-live ends; a store that cannot be reached fails
    every call. Instants and durations are in seconds. *)
Record Item : Type := { Value : string; Expiration : Z }.

Record Store : Type :=
  { items : gmap string Item; reachable : bool }.

(** Modelled from the spec: [set(key, value, ttl) -> error] of the
    store, the time-to-live measured from the instant [now] of the
    write. *)
Definition Store_set (now : Z) (key value : string) (ttl : Z) (st : Store)
    : Store * option error :=
  if reachable st then
    ({| items := <[key := {| Value := value; Expiration := now + ttl |}]>
                   (items st);
        reachable := reachable st |}, None)
  else (st, Some StoreUnavailable).

(** Modelled from the spec: [get(key) -> (bytes, found, error)] of the
    store at the instant [now]; an item whose time-to-live has elapsed
    is not found. *)
Definition Store_get (now : Z) (key : string) (st : Store)
    : option string * option error :=
  if reachable st then
    match items st !! key with
    | Some it =>
      if now <? Expiration it then (Some (Value it), None) else (None, None)
    | None => (None, None)
    end
  else (None, Some StoreUnavailable).

(** Modelled from the spec: test-only [deleteAll() -> error] of the
    store, called by [initMemcached]. *)
Definition Store_DeleteAll (st : Store) : Store * option error :=
  if reachable st then ({| items := ∅; reachable := reachable st |}, None)
  else (st, Some StoreUnavailable).

(** Modelled from the spec: the cache value [NewMemcached] returns (its
    type is missing): the key namespace and the store client. *)
Record Memcached : Type := { keyPrefix : string; client : Store }.

(** Modelled from the spec: the fork tag of the serialized form (the
    payload's marshalling is missing). *)
Definition forkTag (f : ForkVariant) : ascii :=
  match f with
  | Bellatrix => "b"%char
  | Capella => "c"%char
  | Deneb => "d"%char
  end.

(** Modelled from the spec: the fork a tag of the serialized form names
    (the payload's unmarshalling is missing); [None] for a tag of no
    recognized fork. *)
Definition tagFork (c : ascii) : option ForkVariant :=
  if Ascii.eqb c "b" then Some Bellatrix
  else if Ascii.eqb c "c" then Some Capella
  else if Ascii.eqb c "d" then Some Deneb
  else None.

(** Modelled from the spec: payload validation of [Save] (the
    implementation is missing): a known fork variant and a non-empty
    body; then the serialized form, fork tag plus body. *)
Definition MarshalPayload (p : Payload) : option string :=
  match Version p with
  | None => None
  | Some f =>
    match ExecutionBody p with
    | EmptyString => None
    | String _ _ => Some (String (forkTag f) (ExecutionBody p))
    end
  end.

(** Modelled from the spec: deserialization into a recognized
    fork-tagged payload (the payload's unmarshalling is missing). *)
Definition UnmarshalPayload (bytes : string) : option Payload :=
  match bytes with
  | EmptyString => None
  | String t body =>
    match tagFork t with
    | Some f => Some {| Version := Some f; ExecutionBody := body |}
    | None => None
    end
  end.

(** Modelled from the spec: key construction (the implementation is
    missing): a fixed namespace plus the decimal slot, the lower-cased
    hex proposer pubkey and the lower-cased hex block hash. *)
Definition cacheKey (prefix : string) (slot : Z)
    (proposerPubkey blockHash : string) : string :=
  prefix +:+ ":" +:+ pretty slot +:+ "_"
    +:+ GoString.map lowerByte proposerPubkey +:+ "_"
    +:+ GoString.map lowerByte blockHash.

Section Expiry.

(** The fixed time-to-live the test names; its value is not among the
    sources. *)
Variable defaultMemcachedExpirySeconds : Z.

(** Modelled from the spec: [Save] of section 4.1 (the implementation of
    [SaveExecutionPayload] is missing), called at the instant [now]. *)
Definition SaveExecutionPayload (now : Z) (m : Memcached) (slot : Z)
    (proposerPubkey blockHash : string) (payload : Payload)
    : Memcached * option error :=
  match MarshalPayload payload with
  | None => (m, Some InvalidInput)
  | Some bytes =>
    let key := cacheKey (keyPrefix m) slot proposerPubkey blockHash in
    let '(st, err) :=
      Store_set now key bytes defaultMemcachedExpirySeconds (client m) in
    ({| keyPrefix := keyPrefix m; client := st |}, err)
  end.

(** Modelled from the spec: [Get] of section 4.1 (the implementation of
    [GetExecutionPayload] is missing), called at the instant [now]:
    the payload or absent, and the error. *)
Definition GetExecutionPayload (now : Z) (m : Memcached) (slot : Z)
    (proposerPubkey blockHash : string) : option Payload * option error :=
  let key := cacheKey (keyPrefix m) slot proposerPubkey blockHash in
  match Store_get now key (client m) with
  | (_, Some err) => (None, Some err)
  | (None, None) => (None, None)
  | (Some bytes, None) =>
    match UnmarshalPayload bytes with
    | Some p => (Some p, None)
    | None => (None, Some DecodeError)
    end
  end.

End Expiry.

End Datastore.

(** ** Sample worlds

    A world in which the properties below are instantiated: a case
    table without letters above ASCII, a scanner that knows four
    bodies, a network that accepts every request, and a service with one
    validator. *)

Module Scenario.

Import GoString GoJSON Server.

Definition table (r : Z) : Z := r.

Definition quote : string := String "034"%char EmptyString.

Definition quoted (s : string) : string := quote +:+ s +:+ quote.

(** The body [{data:[{validator:{pubkey:0xAB}}]}], keys and the pubkey
    quoted. *)
Definition singleBody : string :=
  "{" +:+ quoted "data" +:+ ":[{" +:+ quoted "validator" +:+ ":{"
    +:+ quoted "pubkey" +:+ ":" +:+ quoted "0xAB" +:+ "}}]}".

Definition singleJSON : json :=
  JObject
    [("data"%string,
      JArray
        [JObject
           [("validator"%string,
             JObject [("pubkey"%string, JString "0xAB")])]])].

(** The body [{code:404,message:state not found}], keys and the message
    quoted. *)
Definition errorBody : string :=
  "{" +:+ quoted "code" +:+ ":404," +:+ quoted "message" +:+ ":"
    +:+ quoted "state not found" +:+ "}".

Definition errorMembers : list (string * json) :=
  [("code"%string, JNumber "404");
   ("message"%string, JString "state not found")].

Definition scan (data : string) : option json :=
  if String.eqb data singleBody then Some singleJSON
  else if String.eqb data errorBody then Some (JObject errorMembers)
  else if String.eqb data "{}" then Some (JObject [])
  else if String.eqb data "[]" then Some (JArray [])
  else None.

Definition fault_text (e : fault) : string :=
  match e with
  | SyntaxError => "invalid character"
  | TypeError t => "json: cannot unmarshal " +:+ Value t
  end.

Definition accepts (method url : string) : option error := None.

Definition answers (status : Z) (bodyBytes : string) (req : Request)
    : result Response :=
  Ok {| StatusCode := status; Body := Ok bodyBytes |}.

Definition refuses (req : Request) : result Response :=
  Err (transportError "connection refused").

Definition entry (pubkey : string) : validatorResponseEntry :=
  {| Validator := {| Pubkey := pubkey |} |}.

Definition service : BeaconClientValidatorService :=
  {| beaconEndpoint := "http://beacon";
     validatorSet := {[ "0xcd"%string := entry "0xCD" ]} |}.

(** A reachable, empty cache under the prefix [TestMemcached] uses, two
    payloads that differ in their body, and a payload of no fork. *)
Definition cache : Datastore.Memcached :=
  {| Datastore.keyPrefix := "test";
     Datastore.client :=
       {| Datastore.items := ∅; Datastore.reachable := true |} |}.

Definition payload1 : Datastore.Payload :=
  {| Datastore.Version := Some Datastore.Capella;
     Datastore.ExecutionBody := "gas_limit=5002" |}.

Definition payload2 : Datastore.Payload :=
  {| Datastore.Version := Some Datastore.Capella;
     Datastore.ExecutionBody := "gas_limit=5003" |}.


End Scenario.

(** ** Shapes of response bodies

    What a body holds for the decoder, read off the JSON value: the
    members of an object that select a field, and the pubkeys a
    validators response lists. The functions are the vocabulary of the
    properties of [fetchBeacon] and [FetchValidators]; the code decodes
    by [GoJSON.value]. *)

Module Shape.

Import GoString GoJSON Server.

(** The members of an object that select a field of a struct, each with
    the index of its field, in the order of the text. *)
Fixpoint selecting (names : list string) (members : list (string * json))
    : list (nat * json) :=
  match members with
  | [] => []
  | (key, j) :: rest =>
    match fieldIndex names key with
    | Some i => (i, j) :: selecting names rest
    | None => selecting names rest
    end
  end.

(** The pubkey an element of [data] stands for: the string under
    [validator] then [pubkey], each named by one member at most, and the
    empty string when either is not named at all; [None] for an element
    of another shape. *)
Definition pubkeyOf (j : json) : option string :=
  match j with
  | JObject ms =>
    match selecting ["validator"%string] ms with
    | [] => Some EmptyString
    | [(O, JObject vs)] =>
      match selecting ["pubkey"%string] vs with
      | [] => Some EmptyString
      | [(O, JString p)] => Some p
      | _ => None
      end
    | _ => None
    end
  | _ => None
  end.

Fixpoint pubkeysOfElems (elems : list json) : option (list string) :=
  match elems with
  | [] => Some []
  | j :: rest =>
    match pubkeyOf j, pubkeysOfElems rest with
    | Some p, Some ps => Some (p :: ps)
    | _, _ => None
    end
  end.

(** The pubkeys a validators response lists: an object with one member
    for [data], an array of elements that each stand for a pubkey;
    members that select no field are allowed everywhere. *)
Definition pubkeysOf (j : json) : option (list string) :=
  match j with
  | JObject members =>
    match selecting ["Data"%string] members with
    | [(O, JArray elems)] => pubkeysOfElems elems
    | _ => None
    end
  | _ => None
  end.

(** A key that names the [data] field: the word in any case of its
    letters. *)
Definition namesData (key : string) : bool :=
  String.eqb (GoString.map lowerByte key) "data".

(** A body that lacks the [data] field: the value [null], or an object
    none of whose keys names the field; an array, a string, a number or a
    boolean is no such body. *)
Definition lacksData (j : json) : bool :=
  match j with
  | JNull => true
  | JObject members =>
    negb (List.existsb (fun kv => namesData (fst kv)) members)
  | _ => false
  end.

(** The entry a pubkey decodes to. *)
Definition entryOf (pubkey : string) : validatorResponseEntry :=
  {| Validator := {| Pubkey := pubkey |} |}.

(** A JSON value that is neither a string nor [null]: it does not fit a
    Go string. *)
Definition notString (j : json) : bool :=
  match j with
  | JString _ | JNull => false
  | _ => true
  end.

(** A JSON value that is neither the literal of a 64-bit integer nor
    [null]: it does not fit a Go [int]. *)
Definition notInt (j : json) : bool :=
  match j with
  | JNull => false
  | JNumber lit =>
    match ParseInt lit with
    | Some _ => false
    | None => true
    end
  | _ => true
  end.

(** A JSON value that is neither an array nor [null]: it does not fit a
    Go slice. *)
Definition notArray (j : json) : bool :=
  match j with
  | JArray _ | JNull => false
  | _ => true
  end.

(** A string of ASCII bytes only, the [isASCII] of [strings.ToLower]. *)
Definition isASCII (s : string) : bool :=
  GoString.forallb (fun c => byteZ c <? RuneSelf) s.

(** [strings.HasPrefix] and containment, as propositions. *)
Definition hasPrefix (s prefix : string) : Prop :=
  exists rest, s = prefix +:+ rest.

Definition contains (s part : string) : Prop :=
  exists before after, s = before +:+ part +:+ after.

End Shape.

(** ** The life of a validator service *)

Module Lifecycle.

Import GoString GoJSON Server.

Section World.

Variable caseRanges_ToLower : Z -> Z.
Variable scan : string -> option json.
Variable fault_text : fault -> string.
Variable http_NewRequest_refuses : string -> string -> option error.

(** A service made by [NewBeaconClientValidatorService] and refreshed by
    [FetchValidators] once for each answer of the network in [answers],
    in turn; the errors of the refreshes are dropped. *)
Definition refreshed (beaconEndpoint : string)
    (answers : list (Request -> result Response))
    : BeaconClientValidatorService :=
  fold_left
    (fun b http_DefaultClient_Do =>
       fst (FetchValidators caseRanges_ToLower scan fault_text
              http_NewRequest_refuses http_DefaultClient_Do b))
    answers (NewBeaconClientValidatorService beaconEndpoint).

End World.

End Lifecycle.

(** ** More sample worlds *)

Module Samples.

Import GoString GoJSON Server.

(** A response as beacon nodes send it, with members the service does
    not read, a key in another case, and two entries whose pubkeys differ
    in case only. *)
Definition beaconJSON : json :=
  JObject
    [("execution_optimistic"%string, JBool false);
     ("finalized"%string, JBool true);
     ("DATA"%string,
      JArray
        [JObject
           [("index"%string, JString "1");
            ("status"%string, JString "active_ongoing");
            ("validator"%string,
             JObject
               [("pubkey"%string, JString "0xAB");
                ("effective_balance"%string, JString "32000000000")])];
         JObject
           [("index"%string, JString "2");
            ("validator"%string,
             JObject [("pubkey"%string, JString "0xab")])];
         JObject
           [("index"%string, JString "3");
            ("validator"%string,
             JObject [("pubkey"%string, JString "0xEF")])]])].

(** A scanner that reads every body as one JSON value. *)
Definition scanAs (j : json) (data : string) : option json := Some j.

(** A scanner that reads no body. *)
Definition scanNone (data : string) : option json := None.

End Samples.

(** ** package database: the tables

    [schema.go] names the tables after a prefix read from the environment
    and builds the schema that creates them. *)

Module Database.

Section Prefix.

(** [common.GetEnv("DB_TABLE_PREFIX", "dev")]: the prefix configured, or
    [dev]; the environment is outside the repository. *)
Variable tableBase : string.

Definition TableValidatorRegistration : string :=
  tableBase +:+ "_validator_registration".

Definition TableBuilderBlockSubmission : string :=
  tableBase +:+ "_builder_block_submission".

Definition TableBuilderBlockSimResult : string :=
  tableBase +:+ "_builder_block_sim_result".

Definition TableDeliveredPayload : string :=
  tableBase +:+ "_payload_delivered".

Definition schema : string :=
  "
CREATE TABLE IF NOT EXISTS "
  +:+ TableValidatorRegistration
  +:+ " (
	id          bigint GENERATED BY DEFAULT AS IDENTITY PRIMARY KEY,
	inserted_at timestamp NOT NULL default current_timestamp,

	pubkey        varchar(98) NOT NULL UNIQUE,
	fee_recipient varchar(42) NOT NULL,
	timestamp     bigint NOT NULL,
	gas_limit     bigint NOT NULL,
	signature     text NOT NULL
);

CREATE TABLE IF NOT EXISTS "
  +:+ TableBuilderBlockSubmission
  +:+ " (
	id bigint GENERATED BY DEFAULT AS IDENTITY PRIMARY KEY,
	inserted_at timestamp NOT NULL default current_timestamp,

	epoch bigint NOT NULL,
	slot  bigint NOT NULL,

	builder_pubkey  text NOT NULL,
	proposer_pubkey text NOT NULL,
	proposer_fee_recipient text NOT NULL,

	parent_hash  text NOT NULL,
	block_hash   text NOT NULL,
	block_number bigint NOT NULL,
	num_tx       int NOT NULL,
	value        NUMERIC(48, 0),

	gas_used  bigint NOT NULL,
	gas_limit bigint NOT NULL,

	payload json NOT NULL
);

CREATE TABLE IF NOT EXISTS "
  +:+ TableBuilderBlockSimResult
  +:+ " (
	id bigint GENERATED BY DEFAULT AS IDENTITY PRIMARY KEY,
	inserted_at timestamp NOT NULL default current_timestamp,

	block_submission_id bigint references "
  +:+ TableBuilderBlockSubmission
  +:+ "(id) ON DELETE CASCADE,
	success boolean NOT NULL,
	error   text NOT NULL
);

CREATE TABLE IF NOT EXISTS "
  +:+ TableDeliveredPayload
  +:+ " (
	id bigint GENERATED BY DEFAULT AS IDENTITY PRIMARY KEY,
	inserted_at timestamp NOT NULL default current_timestamp,

	epoch bigint NOT NULL,
	slot  bigint NOT NULL,

	builder_pubkey  text NOT NULL,
	proposer_pubkey text NOT NULL,
	proposer_fee_recipient text NOT NULL,

	parent_hash  text NOT NULL,
	block_hash   text NOT NULL,
	block_number bigint NOT NULL,
	num_tx       int NOT NULL,
	value        NUMERIC(48, 0),

	gas_used  bigint NOT NULL,
	gas_limit bigint NOT NULL,

	execution_payload     json NOT NULL,
	bid_trace             json NOT NULL,
	bid_trace_builder_sig text NOT NULL,
	signed_builder_bid    json NOT NULL,
	signed_blinded_beacon_block json NOT NULL
);
".

End Prefix.

(** The four tables of the schema. *)
Inductive Table : Type :=
| ValidatorRegistration
| BuilderBlockSubmission
| BuilderBlockSimResult
| DeliveredPayload.

Definition tableName (tableBase : string) (t : Table) : string :=
  match t with
  | ValidatorRegistration => TableValidatorRegistration tableBase
  | BuilderBlockSubmission => TableBuilderBlockSubmission tableBase
  | BuilderBlockSimResult => TableBuilderBlockSimResult tableBase
  | DeliveredPayload => TableDeliveredPayload tableBase
  end.

End Database.

(** ** package datastore: the request [TestMemcached] builds

    [testBuilderSubmitBlockRequest] of [memcached_test.go]. The types of
    the request come from libraries; they are embedded with the fields
    the function sets, the other fields being zero. A fixed-size byte
    array is the list of its bytes. *)

Module DatastoreTest.

(** A byte array of [n] bytes given by its first bytes, the rest zero,
    as in [phase0.Hash32{0x01}]. *)
Definition bytesN (n : nat) (init : list Z) : list Z :=
  init ++ repeat 0 (n - length init).

Definition Hash32 : list Z -> list Z := bytesN 32.
Definition Root : list Z -> list Z := bytesN 32.
Definition BLSPubKey : list Z -> list Z := bytesN 48.
Definition ExecutionAddress : list Z -> list Z := bytesN 20.
Definition Bloom : list Z -> list Z := bytesN 256.

Module apiv1.

Record BidTrace : Type :=
  { Slot : Z;
    ParentHash : list Z;
    BlockHash : list Z;
    BuilderPubkey : list Z;
    ProposerPubkey : list Z;
    ProposerFeeRecipient : list Z;
    Value : Z;
    GasLimit : Z;
    GasUsed : Z }.

End apiv1.

Module capellaspec.

Record ExecutionPayload : Type :=
  { ParentHash : list Z;
    FeeRecipient : list Z;
    StateRoot : list Z;
    ReceiptsRoot : list Z;
    LogsBloom : list Z;
    PrevRandao : list Z;
    BlockNumber : Z;
    GasLimit : Z;
    GasUsed : Z;
    Timestamp : Z;
    ExtraData : list Z;
    BaseFeePerGas : Z;
    BlockHash : list Z;
    Transactions : list (list Z) }.

End capellaspec.

Module capella.

Record SubmitBlockRequest : Type :=
  { Signature : list Z;
    Message : option apiv1.BidTrace;
    ExecutionPayload : option capellaspec.ExecutionPayload }.

End capella.

(** [common.BuilderSubmitBlockRequest]: [None] is the nil pointer. *)
Record BuilderSubmitBlockRequest : Type :=
  { Capella : option capella.SubmitBlockRequest }.

Section Versions.

(** The constants of [consensusspec.DataVersion]; their values are the
    library's. *)
Variable DataVersionPhase0 : Z.
Variable DataVersionAltair : Z.
Variable DataVersionBellatrix : Z.
Variable DataVersionCapella : Z.
Variable DataVersionDeneb : Z.

Definition emptyRequest : BuilderSubmitBlockRequest := {| Capella := None |}.

(** The [switch] on the version: the case of Deneb falls through to the
    case of Phase0, Altair and Bellatrix, which falls through to the
    default. *)
Definition testBuilderSubmitBlockRequest (pubkey signature : list Z)
    (version : Z) : BuilderSubmitBlockRequest :=
  if version =? DataVersionCapella then
    {| Capella :=
         Some
           {| capella.Signature := signature;
              capella.Message :=
                Some
                  {| apiv1.Slot := 1;
                     apiv1.ParentHash := Hash32 [0x01];
                     apiv1.BlockHash := Hash32 [0x09];
                     apiv1.BuilderPubkey := pubkey;
                     apiv1.ProposerPubkey := BLSPubKey [0x03];
                     apiv1.ProposerFeeRecipient := ExecutionAddress [0x04];
                     apiv1.Value := 123;
                     apiv1.GasLimit := 5002;
                     apiv1.GasUsed := 5003 |};
              capella.ExecutionPayload :=
                Some
                  {| capellaspec.ParentHash := Hash32 [0x01];
                     capellaspec.FeeRecipient := ExecutionAddress [0x02];
                     capellaspec.StateRoot := Root [0x03];
                     capellaspec.ReceiptsRoot := Root [0x04];
                     capellaspec.LogsBloom := Bloom [0x05];
                     capellaspec.PrevRandao := Hash32 [0x06];
                     capellaspec.BlockNumber := 5001;
                     capellaspec.GasLimit := 5002;
                     capellaspec.GasUsed := 5003;
                     capellaspec.Timestamp := 5004;
                     capellaspec.ExtraData := [0x07];
                     capellaspec.BaseFeePerGas := 123;
                     capellaspec.BlockHash := Hash32 [0x09];
                     capellaspec.Transactions := [] |} |} |}
  else if version =? DataVersionDeneb then emptyRequest
  else if (version =? DataVersionPhase0) || (version =? DataVersionAltair)
          || (version =? DataVersionBellatrix)
  then emptyRequest
  else emptyRequest.

End Versions.

End DatastoreTest.

(** * Properties *)

(** ** Lower-casing ignores the case of ASCII letters *)

Module GoStringFacts.

Import GoString.

Lemma byteZ_range c : 0 <= byteZ c < 256.
Proof.
  unfold byteZ. pose proof (N_ascii_bounded c) as Hb. lia.
Qed.

Lemma zbyte_byteZ c : zbyte (byteZ c) = c.
Proof.
  unfold zbyte. rewrite Z.mod_small by apply byteZ_range.
  unfold byteZ. rewrite N2Z.id. apply ascii_N_embedding.
Qed.

Lemma byteZ_zbyte z : 0 <= z < 256 -> byteZ (zbyte z) = z.
Proof.
  intros Hz. unfold zbyte, byteZ. rewrite Z.mod_small by lia.
  rewrite N_ascii_embedding by lia. lia.
Qed.

Lemma byteZ_inj c d : byteZ c = byteZ d -> c = d.
Proof.
  intros H. rewrite <- (zbyte_byteZ c), <- (zbyte_byteZ d). now rewrite H.
Qed.

Lemma byteZ_lowerByte c :
  byteZ (lowerByte c) =
  if (0x41 <=? byteZ c) && (byteZ c <=? 0x5A) then byteZ c + 0x20
  else byteZ c.
Proof.
  unfold lowerByte, isUpperByte.
  destruct ((0x41 <=? byteZ c) && (byteZ c <=? 0x5A)) eqn:E; [|reflexivity].
  apply byteZ_zbyte. lia.
Qed.

(** Bytes that agree after lower-casing are both ASCII or the same. *)
Lemma lowerByte_eq_cases c d :
  lowerByte c = lowerByte d ->
  c = d \/ (byteZ c < 0x80 /\ byteZ d < 0x80).
Proof.
  intros H. apply (f_equal byteZ) in H. rewrite !byteZ_lowerByte in H.
  destruct ((0x41 <=? byteZ c) && (byteZ c <=? 0x5A)) eqn:Ec,
           ((0x41 <=? byteZ d) && (byteZ d <=? 0x5A)) eqn:Ed.
  - left. apply byteZ_inj. lia.
  - right. lia.
  - right. lia.
  - left. now apply byteZ_inj.
Qed.

Lemma lowerByte_eq_ascii c d :
  lowerByte c = lowerByte d ->
  (byteZ c <? RuneSelf) = (byteZ d <? RuneSelf).
Proof.
  intros H. destruct (lowerByte_eq_cases c d H) as [->|[Hc Hd]]; [reflexivity|].
  unfold RuneSelf.
  destruct (Z.ltb_spec (byteZ c) 0x80), (Z.ltb_spec (byteZ d) 0x80); lia.
Qed.

Lemma caseVariant_refl s : caseVariant s s.
Proof. induction s; constructor; auto. Qed.

Lemma caseVariant_sym s t : caseVariant s t -> caseVariant t s.
Proof. induction 1; constructor; auto. Qed.

Lemma caseVariant_length s t :
  caseVariant s t -> String.length s = String.length t.
Proof. induction 1; simpl; congruence. Qed.

Lemma caseVariant_map s t : caseVariant s t -> map lowerByte s = map lowerByte t.
Proof. induction 1; simpl; congruence. Qed.

Lemma caseVariant_drop n s t :
  caseVariant s t -> caseVariant (drop n s) (drop n t).
Proof.
  intros H. revert n. induction H; intros [|n]; simpl; auto; constructor; auto.
Qed.

Lemma caseVariant_isASCII s t :
  caseVariant s t ->
  forallb (fun c => byteZ c <? RuneSelf) s =
  forallb (fun c => byteZ c <? RuneSelf) t.
Proof.
  induction 1; simpl; [reflexivity|].
  now rewrite IHcaseVariant, (lowerByte_eq_ascii c d).
Qed.

Lemma lowerByte_not_upper c : isUpperByte c = false -> lowerByte c = c.
Proof. unfold lowerByte. now intros ->. Qed.

Lemma map_lowerByte_no_upper s :
  existsb isUpperByte s = false -> map lowerByte s = s.
Proof.
  induction s as [|c s IH]; simpl; [reflexivity|].
  intros H. apply orb_false_iff in H as [Hc Hs].
  now rewrite lowerByte_not_upper, IH.
Qed.

(** On its ASCII-only path [ToLower] lower-cases byte by byte. *)
Lemma ToLower_ascii table s :
  forallb (fun c => byteZ c <? RuneSelf) s = true ->
  ToLower table s = map lowerByte s.
Proof.
  intros H. unfold ToLower. rewrite H.
  destruct (existsb isUpperByte s) eqn:E; simpl; [reflexivity|].
  symmetry. now apply map_lowerByte_no_upper.
Qed.

Lemma first_bounds s0 sz lo hi :
  first s0 = Some (sz, lo, hi) -> 0x80 <= lo.
Proof.
  unfold first, locb.
  repeat match goal with
         | |- context [if ?b then _ else _] => destruct b
         end; intros [= <- <- <-] || discriminate; lia.
Qed.

(** A byte accepted as second, third or fourth byte of a sequence is not
    ASCII; case variants agree on it. *)
Lemma accept_variant c d lo hi :
  lowerByte c = lowerByte d -> 0x80 <= lo ->
  ((byteZ c <? lo) || (hi <? byteZ c)) = ((byteZ d <? lo) || (hi <? byteZ d))
  /\ (((byteZ c <? lo) || (hi <? byteZ c)) = false -> c = d).
Proof.
  intros H Hlo. destruct (lowerByte_eq_cases c d H) as [->|[Hc Hd]].
  - split; auto.
  - assert ((byteZ c <? lo) = true) as -> by (apply Z.ltb_lt; lia).
    assert ((byteZ d <? lo) = true) as -> by (apply Z.ltb_lt; lia).
    simpl. split; [reflexivity|discriminate].
Qed.

Lemma unicode_ToLower_byte table c :
  byteZ c < 0x80 ->
  unicode_ToLower table (byteZ c) = byteZ (lowerByte c).
Proof.
  intros Hc. unfold unicode_ToLower. rewrite byteZ_lowerByte.
  destruct (Z.leb_spec (byteZ c) 0x7F); [reflexivity|lia].
Qed.

(** Case variants decode in lockstep: same width, and runes with the
    same lower case. *)
Lemma DecodeRuneInString_variant table s t :
  caseVariant s t ->
  snd (DecodeRuneInString s) = snd (DecodeRuneInString t) /\
  unicode_ToLower table (fst (DecodeRuneInString s)) =
  unicode_ToLower table (fst (DecodeRuneInString t)).
Proof.
  intros H. pose proof (caseVariant_length _ _ H) as Hlen.
  destruct H as [|c0 d0 s0 t0 H0 Hr0]; [split; reflexivity|].
  unfold DecodeRuneInString; fold DecodeRuneInString.
  rewrite <- (lowerByte_eq_ascii c0 d0 H0), Hlen.
  destruct (Z.ltb_spec (byteZ c0) RuneSelf) as [Hc0|Hc0].
  { simpl. split; [reflexivity|].
    assert (byteZ d0 < 0x80) as Hd0.
    { pose proof (lowerByte_eq_ascii c0 d0 H0) as E. unfold RuneSelf in *.
      destruct (Z.ltb_spec (byteZ c0) 0x80), (Z.ltb_spec (byteZ d0) 0x80);
        try discriminate; lia. }
    unfold RuneSelf in Hc0.
    rewrite !unicode_ToLower_byte by assumption. now rewrite H0. }
  assert (c0 = d0) as <-.
  { destruct (lowerByte_eq_cases c0 d0 H0) as [|[? _]]; [assumption|].
    unfold RuneSelf in Hc0. lia. }
  destruct (first (byteZ c0)) as [[[sz lo] hi]|] eqn:Ef; [|split; reflexivity].
  pose proof (first_bounds _ _ _ _ Ef) as Hlo.
  destruct (_ <? sz)%nat; [split; reflexivity|].
  destruct Hr0 as [|c1 d1 s1 t1 H1 Hr1]; [split; reflexivity|].
  destruct (accept_variant c1 d1 lo hi H1 Hlo) as [E1 I1]. rewrite <- E1.
  destruct ((byteZ c1 <? lo) || (hi <? byteZ c1)); [split; reflexivity|].
  rewrite <- (I1 eq_refl).
  destruct (sz <=? 2)%nat; [split; reflexivity|].
  destruct Hr1 as [|c2 d2 s2 t2 H2 Hr2]; [split; reflexivity|].
  destruct (accept_variant c2 d2 locb hicb H2) as [E2 I2];
    [unfold locb; lia|]. rewrite <- E2.
  destruct ((byteZ c2 <? locb) || (hicb <? byteZ c2)); [split; reflexivity|].
  rewrite <- (I2 eq_refl).
  destruct (sz <=? 3)%nat; [split; reflexivity|].
  destruct Hr2 as [|c3 d3 s3 t3 H3 Hr3]; [split; reflexivity|].
  destruct (accept_variant c3 d3 locb hicb H3) as [E3 I3];
    [unfold locb; lia|]. rewrite <- E3.
  destruct ((byteZ c3 <? locb) || (hicb <? byteZ c3)); [split; reflexivity|].
  rewrite <- (I3 eq_refl). split; reflexivity.
Qed.

Lemma Map_runes_variant table steps s t :
  caseVariant s t ->
  List.map (unicode_ToLower table) (runes_from steps s) =
  List.map (unicode_ToLower table) (runes_from steps t).
Proof.
  revert s t. induction steps as [|k IH]; intros s t H; [reflexivity|].
  simpl. destruct H as [|c d s t Hcd Hst]; [reflexivity|].
  assert (caseVariant (String c s) (String d t)) as Hv by now constructor.
  destruct (DecodeRuneInString_variant table _ _ Hv) as [Hw Hr].
  destruct (DecodeRuneInString (String c s)) as [r1 w1],
           (DecodeRuneInString (String d t)) as [r2 w2].
  simpl in Hw, Hr. subst w2. simpl. rewrite Hr. f_equal.
  apply IH. now apply caseVariant_drop.
Qed.

Lemma Map_as_map mapping s :
  Map mapping s =
  fold_right (fun r out => if 0 <=? r then AppendRune r +:+ out else out)
    EmptyString (List.map mapping (runes s)).
Proof.
  unfold Map. induction (runes s) as [|c l IH]; simpl; [reflexivity|].
  now rewrite IH.
Qed.

(** Strings that differ only in the case of ASCII letters have the same
    lower-casing, whatever bytes they hold besides. *)
Lemma ToLower_caseVariant table s t :
  caseVariant s t -> ToLower table s = ToLower table t.
Proof.
  intros H. unfold ToLower. rewrite <- (caseVariant_isASCII s t H).
  destruct (forallb _ s) eqn:Ea.
  - pose proof (ToLower_ascii table s Ea) as Hs.
    pose proof (ToLower_ascii table t) as Ht.
    rewrite <- (caseVariant_isASCII s t H) in Ht. specialize (Ht Ea).
    unfold ToLower in Hs, Ht. rewrite Ea in Hs.
    rewrite <- (caseVariant_isASCII s t H), Ea in Ht.
    rewrite Hs, Ht. now apply caseVariant_map.
  - rewrite !Map_as_map. unfold runes.
    rewrite <- (caseVariant_length s t H).
    now rewrite (Map_runes_variant table _ s t H).
Qed.

(** The lower-casing of a hex pubkey, and of a string with a letter
    above ASCII (U+00E9, which the sample table leaves alone). *)
Example ToLower_hex table : ToLower table "0xABcdEF" = "0xabcdef"%string.
Proof. reflexivity. Qed.

Example ToLower_rune :
  ToLower Scenario.table
    (String (zbyte 0xC3) (String (zbyte 0xA9) "A"))
  = String (zbyte 0xC3) (String (zbyte 0xA9) "a").
Proof. vm_compute. reflexivity. Qed.

Example runes_truncated :
  runes (String (zbyte 0xE2) (String (zbyte 0x84) "A"))
  = [RuneError; RuneError; 0x41].
Proof. vm_compute. reflexivity. Qed.

Example caseVariant_hex : caseVariant "0xAb" "0XaB".
Proof. repeat constructor. Qed.

End GoStringFacts.

(** ** The validator service *)

Module ServerFacts.

Import GoString GoJSON Server GoStringFacts.

(** Keys match field names up to case, and a number that is no 64-bit
    integer does not fit a Go [int]. *)
Example equalFold_data : equalFold "Data" "data" = true.
Proof. vm_compute. reflexivity. Qed.

Example fieldIndex_message :
  fieldIndex ["code"; "message"]%string "MESSAGE" = Some 1%nat.
Proof. vm_compute. reflexivity. Qed.

Example ParseInt_out_of_range : ParseInt "9223372036854775808" = None.
Proof. vm_compute. reflexivity. Qed.

Example int_value_fraction :
  snd (int_value (JNumber "1.5") 0 None)
  = Some {| Value := "number 1.5"; Type_ := KInt |}.
Proof. vm_compute. reflexivity. Qed.

(** *** Keys that name the [data] field *)

Lemma lowerByte_upperByte c : lowerByte (upperByte c) = lowerByte c.
Proof. destruct c as [[] [] [] [] [] [] [] []]; reflexivity. Qed.

(** The first byte of a folded name, when it is an ASCII byte other than
    [S] and [K], is the upper-cased first byte of the name, an ASCII
    byte. *)
Lemma foldName_head c0 r0 h t :
  foldName (String c0 r0) = String h t ->
  byteZ h < 0x80 -> byteZ h <> 0x53 -> byteZ h <> 0x4B ->
  byteZ c0 < 0x80 /\ h = upperByte c0 /\ foldName r0 = t.
Proof.
  cbn [foldName]. unfold RuneSelf.
  destruct (Z.ltb_spec (byteZ c0) 0x80) as [Hc|Hc].
  { intros [= <- <-]. auto. }
  intros Heq Hh HS HK. exfalso.
  destruct r0 as [|c1 r1]; [injection Heq as <- _; lia|].
  destruct ((byteZ c0 =? 0xC5) && (byteZ c1 =? 0xBF)).
  { injection Heq as <- _. apply HS. reflexivity. }
  destruct r1 as [|c2 r2]; [injection Heq as <- _; lia|].
  destruct ((byteZ c0 =? 0xE2) && (byteZ c1 =? 0x84) && (byteZ c2 =? 0xAA)).
  - injection Heq as <- _. apply HK. reflexivity.
  - injection Heq as <- _. lia.
Qed.

Lemma foldName_empty s : foldName s = EmptyString -> s = EmptyString.
Proof.
  destruct s as [|c0 r0]; [reflexivity|]. cbn [foldName].
  destruct (byteZ c0 <? RuneSelf); [discriminate|].
  destruct r0 as [|c1 r1]; [discriminate|].
  destruct ((byteZ c0 =? 0xC5) && (byteZ c1 =? 0xBF)); [discriminate|].
  destruct r1 as [|c2 r2]; [discriminate|].
  destruct ((byteZ c0 =? 0xE2) && (byteZ c1 =? 0x84) && (byteZ c2 =? 0xAA));
    discriminate.
Qed.

Lemma foldName_ascii c r :
  byteZ c < 0x80 -> foldName (String c r) = String (upperByte c) (foldName r).
Proof.
  intros Hc. cbn [foldName]. unfold RuneSelf.
  destruct (Z.ltb_spec (byteZ c) 0x80); [reflexivity|lia].
Qed.

Lemma lowerByte_ascii c d :
  lowerByte c = d -> byteZ d < 0x80 -> byteZ c < 0x80.
Proof.
  intros <- Hd. rewrite byteZ_lowerByte in Hd.
  destruct ((0x41 <=? byteZ c) && (byteZ c <=? 0x5A)); lia.
Qed.

Lemma upperByte_of_lowerByte c d :
  lowerByte c = d -> upperByte c = upperByte d.
Proof.
  intros <-. destruct c as [[] [] [] [] [] [] [] []]; reflexivity.
Qed.

Ltac byte_fact :=
  vm_compute; first [reflexivity | discriminate | intros; discriminate].

(** A key selects the untagged field [Data] exactly when it is the word
    [data] in some case of its letters. *)
Lemma fieldIndex_Data_iff key :
  fieldIndex ["Data"%string] key = Some 0%nat <-> Shape.namesData key = true.
Proof.
  unfold Shape.namesData. rewrite String.eqb_eq. split.
  - unfold fieldIndex, index_where.
    destruct (String.eqb_spec "Data" key) as [<-|_]; [reflexivity|].
    unfold equalFold. destruct (String.eqb_spec (foldName "Data")
                                  (foldName key)) as [Hf|_]; [|discriminate].
    intros _. symmetry in Hf. change (foldName "Data") with "DATA"%string in Hf.
    destruct key as [|c0 k0]; [discriminate Hf|].
    apply foldName_head in Hf as (_ & H0 & Hf); [|byte_fact..].
    destruct k0 as [|c1 k1]; [discriminate Hf|].
    apply foldName_head in Hf as (_ & H1 & Hf); [|byte_fact..].
    destruct k1 as [|c2 k2]; [discriminate Hf|].
    apply foldName_head in Hf as (_ & H2 & Hf); [|byte_fact..].
    destruct k2 as [|c3 k3]; [discriminate Hf|].
    apply foldName_head in Hf as (_ & H3 & Hf); [|byte_fact..].
    apply foldName_empty in Hf. subst k3.
    cbn [GoString.map].
    rewrite <- (lowerByte_upperByte c0), <- (lowerByte_upperByte c1),
      <- (lowerByte_upperByte c2), <- (lowerByte_upperByte c3),
      <- H0, <- H1, <- H2, <- H3.
    reflexivity.
  - intros Hk.
    destruct key as [|c0 [|c1 [|c2 [|c3 [|c4 k]]]]]; try discriminate Hk.
    cbn [GoString.map] in Hk. injection Hk as H0 H1 H2 H3.
    assert (foldName (String c0 (String c1 (String c2 (String c3 ""))))
            = "DATA"%string) as Hf.
    { rewrite !foldName_ascii
        by (eapply lowerByte_ascii; [eassumption|byte_fact]).
      rewrite (upperByte_of_lowerByte _ _ H0), (upperByte_of_lowerByte _ _ H1),
        (upperByte_of_lowerByte _ _ H2), (upperByte_of_lowerByte _ _ H3).
      reflexivity. }
    unfold fieldIndex, index_where.
    destruct (String.eqb "Data" _); [reflexivity|].
    unfold equalFold. rewrite Hf. reflexivity.
Qed.

Lemma fieldIndex_Data_None key :
  Shape.namesData key = false -> fieldIndex ["Data"%string] key = None.
Proof.
  intros Hk. destruct (fieldIndex ["Data"%string] key) as [[|i]|] eqn:E;
    [|exfalso|reflexivity].
  - apply fieldIndex_Data_iff in E. congruence.
  - unfold fieldIndex, index_where in E.
    destruct (String.eqb "Data" key); [discriminate|].
    destruct (equalFold "Data" key); discriminate.
Qed.

Lemma member_Data_None members :
  List.existsb (fun kv => Shape.namesData (fst kv)) members = false ->
  member ["Data"%string] 0 members = None.
Proof.
  induction members as [|[key j] rest IH]; [reflexivity|].
  cbn [List.existsb fst member]. intros H.
  apply orb_false_iff in H as [Hk Hrest].
  now rewrite (IH Hrest), (fieldIndex_Data_None key Hk).
Qed.

Section World.

Variable caseRanges_ToLower : Z -> Z.
Variable scan : string -> option json.
Variable fault_text : fault -> string.
Variable http_NewRequest_refuses : string -> string -> option error.
Variable http_DefaultClient_Do : Request -> result Response.

Local Abbreviation ToLower := (GoString.ToLower caseRanges_ToLower).
Local Abbreviation IsValidator := (Server.IsValidator caseRanges_ToLower).
Local Abbreviation Error := (Server.Error fault_text).
Local Abbreviation responds :=
  (Server.responds http_NewRequest_refuses http_DefaultClient_Do).
Local Abbreviation fetch_fails :=
  (Server.fetch_fails scan http_NewRequest_refuses http_DefaultClient_Do).
Local Abbreviation fetchBeacon :=
  (Server.fetchBeacon scan fault_text http_NewRequest_refuses
     http_DefaultClient_Do).
Local Abbreviation fetchAllValidators :=
  (Server.fetchAllValidators scan fault_text http_NewRequest_refuses
     http_DefaultClient_Do).
Local Abbreviation FetchValidators :=
  (Server.FetchValidators caseRanges_ToLower scan fault_text
     http_NewRequest_refuses http_DefaultClient_Do).

(** *** [fetchBeacon], outcome by outcome *)

Lemma status_ge_300 status : 300 <= status -> (status >=? 300) = true.
Proof. intros H. apply Z.geb_le. lia. Qed.

Lemma status_lt_300 status : status < 300 -> (status >=? 300) = false.
Proof. intros H. destruct (Z.geb_spec status 300); [lia|reflexivity]. Qed.

Lemma fetchBeacon_request_refused {A : Type} `{Target A} url method (dst : A)
    err :
  http_NewRequest_refuses method url = Some err ->
  fetchBeacon url method dst =
  (dst, Some (wrapError ("invalid reqest for " +:+ url +:+ ": "
                           +:+ Error err) err)).
Proof.
  intros Hreq. unfold Server.fetchBeacon, http_NewRequest. now rewrite Hreq.
Qed.

Lemma fetchBeacon_client_refused {A : Type} `{Target A} url method (dst : A)
    err :
  http_NewRequest_refuses method url = None ->
  http_DefaultClient_Do (beaconRequest url method) = Err err ->
  fetchBeacon url method dst =
  (dst, Some (wrapError ("client refused for " +:+ url +:+ ": "
                           +:+ Error err) err)).
Proof.
  intros Hreq Hdo. unfold Server.fetchBeacon, http_NewRequest. rewrite Hreq.
  fold (beaconRequest url method). now rewrite Hdo.
Qed.

Lemma fetchBeacon_body_unreadable {A : Type} `{Target A} url method (dst : A)
    status err :
  http_NewRequest_refuses method url = None ->
  http_DefaultClient_Do (beaconRequest url method)
    = Ok {| StatusCode := status; Body := Err err |} ->
  fetchBeacon url method dst =
  (dst, Some (wrapError ("could not read response body for " +:+ url
                           +:+ ": " +:+ Error err) err)).
Proof.
  intros Hreq Hdo. unfold Server.fetchBeacon, http_NewRequest. rewrite Hreq.
  fold (beaconRequest url method). now rewrite Hdo.
Qed.

(** A non-success status: the body is read as an error content, and an
    error is returned either way. *)
Lemma fetchBeacon_non_success {A : Type} `{Target A} url method (dst : A)
    status bodyBytes :
  responds url method status bodyBytes -> 300 <= status ->
  fetchBeacon url method dst =
  (dst,
   Some
     match snd (Unmarshal scan bodyBytes (zero : errorContent)) with
     | Some e =>
       wrapError
         ("could not unmarshal error response from beacon node for "
            +:+ url +:+ " from " +:+ bodyBytes +:+ ": "
            +:+ Error (jsonError e))
         (jsonError e)
     | None =>
       errors_New
         (Message (fst (Unmarshal scan bodyBytes (zero : errorContent))))
     end).
Proof.
  intros [Hreq Hdo] Hst. unfold Server.fetchBeacon, http_NewRequest.
  rewrite Hreq. fold (beaconRequest url method). rewrite Hdo.
  cbn [io_ReadAll Body StatusCode]. rewrite (status_ge_300 _ Hst).
  destruct (Unmarshal scan bodyBytes (zero : errorContent)) as [ec [e|]];
    reflexivity.
Qed.

(** A success status: the body is decoded into the destination. *)
Lemma fetchBeacon_success {A : Type} `{Target A} url method (dst : A)
    status bodyBytes :
  responds url method status bodyBytes -> status < 300 ->
  fetchBeacon url method dst =
  (fst (Unmarshal scan bodyBytes dst),
   match snd (Unmarshal scan bodyBytes dst) with
   | Some e =>
     Some (wrapError
             ("could not unmarshal response for " +:+ url +:+ " from "
                +:+ bodyBytes +:+ ": " +:+ Error (jsonError e))
             (jsonError e))
   | None => None
   end).
Proof.
  intros [Hreq Hdo] Hst. unfold Server.fetchBeacon, http_NewRequest.
  rewrite Hreq. fold (beaconRequest url method). rewrite Hdo.
  cbn [io_ReadAll Body StatusCode]. rewrite (status_lt_300 _ Hst).
  destruct (Unmarshal scan bodyBytes dst) as [d [e|]]; reflexivity.
Qed.

(** Whatever a failing fetch is made of, [fetchAllValidators] returns an
    error. *)
Lemma fetchAllValidators_fails endpoint :
  fetch_fails (validatorsURL endpoint) "GET" ->
  exists err, snd (fetchAllValidators endpoint) = Some err.
Proof.
  unfold Server.fetchAllValidators. fold (validatorsURL endpoint).
  intros [err Hreq|err Hreq Hdo|status err Hreq Hdo
         |status bodyBytes Hresp Hst|status bodyBytes e Hresp Hst Hdec].
  - rewrite (fetchBeacon_request_refused _ _ _ _ Hreq). eauto.
  - rewrite (fetchBeacon_client_refused _ _ _ _ Hreq Hdo). eauto.
  - rewrite (fetchBeacon_body_unreadable _ _ _ _ _ Hreq Hdo). eauto.
  - rewrite (fetchBeacon_non_success _ _ _ _ _ Hresp Hst). eauto.
  - rewrite (fetchBeacon_success _ _ _ _ _ Hresp Hst).
    cbn [snd]. rewrite Hdec. eauto.
Qed.

(** *** [FetchValidators] *)

(** The mapping the loop of [FetchValidators] builds from the entries
    fetched, starting from [m0]. *)
Local Abbreviation built l m0 :=
  (fold_left
     (fun (m : gmap string validatorResponseEntry) vs =>
        <[ToLower (Pubkey (Validator vs)) := vs]> m) l m0).

Lemma FetchValidators_error b vd err :
  fetchAllValidators (beaconEndpoint b) = (vd, Some err) ->
  FetchValidators b = (b, Some err).
Proof. intros H. unfold Server.FetchValidators. now rewrite H. Qed.

Lemma FetchValidators_ok b vd :
  fetchAllValidators (beaconEndpoint b) = (vd, None) ->
  FetchValidators b =
  ({| beaconEndpoint := beaconEndpoint b;
      validatorSet := built (Data vd) ∅ |}, None).
Proof. intros H. unfold Server.FetchValidators. now rewrite H. Qed.

(** An error from [FetchValidators] comes with the service it was called
    on. *)
Lemma FetchValidators_error_inv b b1 err :
  FetchValidators b = (b1, Some err) -> b1 = b.
Proof.
  unfold Server.FetchValidators.
  destruct (fetchAllValidators (beaconEndpoint b)) as [vd [e|]];
    intros [= <- _] || discriminate. reflexivity.
Qed.

Lemma built_lookup_Some l (m0 : gmap string validatorResponseEntry) k vs :
  built l m0 !! k = Some vs ->
  (In vs l /\ ToLower (Pubkey (Validator vs)) = k) \/ m0 !! k = Some vs.
Proof.
  revert m0. induction l as [|x l IH]; intros m0 H; simpl in H; [now right|].
  destruct (IH _ H) as [[Hin Hk]|Hm].
  - left. split; [now right|assumption].
  - destruct (decide (ToLower (Pubkey (Validator x)) = k)) as [Hk|Hk].
    + rewrite Hk, lookup_insert_eq in Hm. injection Hm as <-.
      left. split; [now left|assumption].
    + rewrite lookup_insert_ne in Hm by assumption. now right.
Qed.

Lemma built_lookup_is_Some l (m0 : gmap string validatorResponseEntry) k :
  is_Some (built l m0 !! k) <->
  In k (List.map (fun vs => ToLower (Pubkey (Validator vs))) l)
  \/ is_Some (m0 !! k).
Proof.
  revert m0. induction l as [|x l IH]; intros m0; simpl.
  - split; [now right|]. now intros [[]|H].
  - rewrite IH. split.
    + intros [Hin|Hm]; [left; now right|].
      destruct (decide (ToLower (Pubkey (Validator x)) = k)) as [Hk|Hk].
      * left. now left.
      * rewrite lookup_insert_ne in Hm by assumption. now right.
    + intros [[Hk|Hin]|Hm].
      * right. rewrite Hk, lookup_insert_eq. eauto.
      * now left.
      * right. destruct (decide (ToLower (Pubkey (Validator x)) = k)) as [Hk|Hk].
        -- rewrite Hk, lookup_insert_eq. eauto.
        -- now rewrite lookup_insert_ne.
Qed.

Lemma IsValidator_true b p :
  IsValidator b p = true <-> is_Some (validatorSet b !! ToLower p).
Proof.
  unfold Server.IsValidator. destruct (validatorSet b !! ToLower p).
  - split; eauto.
  - split; [discriminate|]. now intros [x [=]].
Qed.

Lemma IsValidator_false b p :
  IsValidator b p = false <-> validatorSet b !! ToLower p = None.
Proof.
  unfold Server.IsValidator. destruct (validatorSet b !! ToLower p).
  - split; discriminate.
  - split; reflexivity.
Qed.

Lemma built_as_list_to_map l (m0 : gmap string validatorResponseEntry) :
  built l m0 =
  list_to_map
    (rev (List.map (fun vs => (ToLower (Pubkey (Validator vs)), vs)) l))
  ∪ m0.
Proof.
  revert m0. induction l as [|x l IH]; intros m0; simpl.
  - now rewrite (left_id_L ∅ (∪)).
  - rewrite IH, list_to_map_app. simpl.
    rewrite <- (assoc_L (∪)). f_equal.
    rewrite insert_empty. apply insert_union_singleton_l.
Qed.

(** *** Decoding objects into the structs of the package *)

Lemma object_lacks_Data members (v : allValidatorsResponse) s :
  member ["Data"%string] 0 members = None ->
  object allValidatorsResponse_fields members v s = (v, s).
Proof.
  induction members as [|[key j] rest IH]; intros Hm; simpl in *;
    [reflexivity|].
  destruct (member ["Data"%string] 0 rest); [discriminate|].
  unfold findField. simpl List.map.
  destruct (fieldIndex ["Data"%string] key) as [[|k]|] eqn:Ei;
    [discriminate| |].
  - exfalso. unfold fieldIndex, index_where in Ei.
    destruct (String.eqb "Data" key); [discriminate|].
    destruct (equalFold "Data" key); discriminate.
  - now apply IH.
Qed.

Lemma errorContent_step key j (v : errorContent) s :
  match fieldIndex ["code"; "message"]%string key with
  | Some 1%nat =>
    findField errorContent_fields key =
    Some (fun j v s => let '(x, s1) := value j (Message v) s in
                       ({| Code := Code v; Message := x |}, s1))
  | _ =>
    Message
      (fst match findField errorContent_fields key with
           | Some store => store j v s
           | None => (v, s)
           end) = Message v
  end.
Proof.
  unfold findField. simpl List.map.
  destruct (fieldIndex ["code"; "message"]%string key) as [[|[|k]]|] eqn:Ei;
    simpl; try reflexivity.
  - destruct (int_value j (Code v) s); reflexivity.
  - destruct k; reflexivity.
Qed.

Lemma object_lacks_message members (v : errorContent) s :
  member ["code"; "message"]%string 1 members = None ->
  Message (fst (object errorContent_fields members v s)) = Message v.
Proof.
  revert v s. induction members as [|[key j] rest IH]; intros v s Hm;
    simpl in *; [reflexivity|].
  destruct (member ["code"; "message"]%string 1 rest) eqn:Er; [discriminate|].
  pose proof (errorContent_step key j v s) as Hstep.
  destruct (fieldIndex ["code"; "message"]%string key) as [[|[|k]]|];
    try discriminate;
    destruct (match findField errorContent_fields key with
              | Some store => store j v s
              | None => (v, s)
              end) as [v1 s1]; simpl in Hstep;
    rewrite (IH v1 s1 eq_refl); assumption.
Qed.

Lemma object_message members m (v : errorContent) s :
  member ["code"; "message"]%string 1 members = Some (JString m) ->
  Message (fst (object errorContent_fields members v s)) = m.
Proof.
  revert v s. induction members as [|[key j] rest IH]; intros v s Hm;
    simpl in *; [discriminate|].
  destruct (member ["code"; "message"]%string 1 rest) as [j1|] eqn:Er.
  - injection Hm as ->.
    destruct (match findField errorContent_fields key with
              | Some store => store j v s
              | None => (v, s)
              end) as [v1 s1].
    now apply IH.
  - pose proof (errorContent_step key j v s) as Hstep.
    destruct (fieldIndex ["code"; "message"]%string key) as [[|[|k]]|];
      try discriminate.
    injection Hm as ->. rewrite Hstep. simpl.
    now rewrite object_lacks_message.
Qed.

(** *** The registry across a refresh *)

(** C1: when the fetch fails (a network error, a non-success response or
    a body that does not decode), [FetchValidators] returns an error and
    the service with its mapping as it was: [IsValidator] and
    [NumValidators] answer after the call what they answered before. *)
Theorem failed_refresh_keeps_registry b :
  fetch_fails (validatorsURL (beaconEndpoint b)) "GET" ->
  exists err,
    FetchValidators b = (b, Some err) /\
    (forall p, IsValidator (fst (FetchValidators b)) p = IsValidator b p) /\
    NumValidators (fst (FetchValidators b)) = NumValidators b.
Proof.
  intros Hfail.
  destruct (fetchAllValidators_fails _ Hfail) as [err Herr].
  destruct (fetchAllValidators (beaconEndpoint b)) as [vd e] eqn:Hfetch.
  simpl in Herr. subst e.
  exists err. rewrite (FetchValidators_error b vd err Hfetch).
  repeat split.
Qed.

(** C2: after a fetch that succeeded with the response [vd],
    [FetchValidators] returns no error and the mapping is the one built
    from the entries of [vd] under their lower-cased pubkeys, whatever it
    was before: every entry of the mapping is an entry of [vd] under its
    lower-cased pubkey, [IsValidator p] holds exactly when the
    lower-casing of [p] is among the lower-cased pubkeys of [vd], and a
    validator registered before and absent from [vd] is registered no
    more. *)
Theorem successful_refresh_replaces_registry b vd :
  fetchAllValidators (beaconEndpoint b) = (vd, None) ->
  exists b1,
    FetchValidators b = (b1, None) /\
    validatorSet b1 =
      list_to_map
        (rev (List.map (fun vs => (ToLower (Pubkey (Validator vs)), vs))
                (Data vd))) /\
    (forall k vs,
        validatorSet b1 !! k = Some vs ->
        In vs (Data vd) /\ ToLower (Pubkey (Validator vs)) = k) /\
    (forall p,
        IsValidator b1 p = true <->
        In (ToLower p)
           (List.map (fun vs => ToLower (Pubkey (Validator vs))) (Data vd))) /\
    (forall p,
        IsValidator b p = true ->
        ~ In (ToLower p)
             (List.map (fun vs => ToLower (Pubkey (Validator vs))) (Data vd)) ->
        IsValidator b1 p = false).
Proof.
  intros Hfetch. eexists. split; [apply (FetchValidators_ok b vd Hfetch)|].
  cbn [validatorSet].
  assert (forall p,
             IsValidator
               {| beaconEndpoint := beaconEndpoint b;
                  validatorSet := built (Data vd) ∅ |} p = true <->
             In (ToLower p)
                (List.map (fun vs => ToLower (Pubkey (Validator vs)))
                   (Data vd))) as Hiff.
  { intros p. rewrite IsValidator_true. cbn [validatorSet].
    rewrite built_lookup_is_Some, lookup_empty. split; [|now left].
    intros [H|[x H]]; [assumption|discriminate]. }
  repeat split.
  - rewrite built_as_list_to_map. apply (right_id_L ∅ (∪)).
  - destruct (built_lookup_Some _ _ _ _ H) as [[Hin _]|Hm]; [assumption|].
    now rewrite lookup_empty in Hm.
  - destruct (built_lookup_Some _ _ _ _ H) as [[_ Hk]|Hm]; [assumption|].
    now rewrite lookup_empty in Hm.
  - apply Hiff.
  - apply Hiff.
  - intros p _ Hnot.
    destruct (IsValidator _ p) eqn:E; [|reflexivity].
    exfalso. apply Hnot. now apply Hiff.
Qed.

(** C6: [IsValidator] answers the same for two pubkeys that differ only
    in the case of their letters, and it is a total function to [bool];
    and after a [FetchValidators] whose source answered with the single
    entry of pubkey [0xAB], [IsValidator "0xab"] is true, [NumValidators]
    is 1 and [IsValidator "0xCD"] is false. *)
Theorem lookup_ignores_case b p q status bodyBytes :
  caseVariant p q ->
  responds (validatorsURL (beaconEndpoint b)) "GET" status bodyBytes ->
  status < 300 ->
  scan bodyBytes =
    Some
      (JObject
         [("data"%string,
           JArray
             [JObject
                [("validator"%string,
                  JObject [("pubkey"%string, JString "0xAB")])]])]) ->
  IsValidator b p = IsValidator b q /\
  snd (FetchValidators b) = None /\
  IsValidator (fst (FetchValidators b)) "0xab" = true /\
  NumValidators (fst (FetchValidators b)) = 1 /\
  IsValidator (fst (FetchValidators b)) "0xCD" = false.
Proof.
  intros Hpq Hresp Hst Hscan. split.
  { unfold Server.IsValidator.
    now rewrite (ToLower_caseVariant caseRanges_ToLower p q Hpq). }
  assert (fetchAllValidators (beaconEndpoint b) =
          ({| Data := [{| Validator := {| Pubkey := "0xAB" |} |}] |}, None))
    as Hfetch.
  { unfold Server.fetchAllValidators. fold (validatorsURL (beaconEndpoint b)).
    rewrite (fetchBeacon_success _ _ _ _ _ Hresp Hst).
    unfold Unmarshal. rewrite Hscan. reflexivity. }
  rewrite (FetchValidators_ok b _ Hfetch). cbn [fst snd Data].
  repeat split.
Qed.

(** C9: on a service just made by [NewBeaconClientValidatorService], no
    pubkey is a validator and the number of validators is 0. *)
Theorem fresh_registry_is_empty beaconEndpoint p :
  IsValidator (NewBeaconClientValidatorService beaconEndpoint) p = false /\
  NumValidators (NewBeaconClientValidatorService beaconEndpoint) = 0.
Proof.
  split.
  - apply IsValidator_false. apply lookup_empty.
  - reflexivity.
Qed.

(** C8: when the source answers with a status of 300 or more and a body
    that parses as an object decoding into the error content without a
    type error, its [message] member being the string [m],
    [fetchBeacon] returns an error whose text is [m] and leaves the
    destination alone; so does [FetchValidators] when the URL is the one
    it fetches. *)
Theorem non_success_error_is_message {A : Type} `{Target A}
    url method (dst : A) status bodyBytes members m :
  responds url method status bodyBytes ->
  300 <= status ->
  scan bodyBytes = Some (JObject members) ->
  snd (value (JObject members) (zero : errorContent) None) = None ->
  member ["code"; "message"]%string 1 members = Some (JString m) ->
  (exists err,
      fetchBeacon url method dst = (dst, Some err) /\
      err = errors_New m /\ Error err = m) /\
  (forall b,
      url = validatorsURL (beaconEndpoint b) -> method = "GET"%string ->
      exists err, FetchValidators b = (b, Some err) /\ Error err = m).
Proof.
  intros Hresp Hst Hscan Hshape Hmsg.
  assert (forall (B : Type) (HB : Target B) (d : B),
             fetchBeacon url method d = (d, Some (errors_New m))) as Hfetch.
  { intros B HB d. rewrite (fetchBeacon_non_success _ _ _ _ _ Hresp Hst).
    unfold Unmarshal. rewrite Hscan.
    destruct (value (JObject members) (zero : errorContent) None)
      as [ec sv] eqn:Hval.
    simpl in Hshape. subst sv. cbn [fst snd option_map].
    do 3 f_equal.
    assert (ec = fst (value (JObject members) (zero : errorContent) None))
      as -> by now rewrite Hval.
    apply (object_message members m _ _ Hmsg). }
  split.
  - exists (errors_New m). rewrite Hfetch. repeat split.
  - intros b -> ->. exists (errors_New m). split; [|reflexivity].
    apply (FetchValidators_error b zero). unfold Server.fetchAllValidators.
    fold (validatorsURL (beaconEndpoint b)). apply Hfetch.
Qed.

(** A success status and a body that parses as an object without a
    member for the [Data] field: [FetchValidators] returns no error and
    installs the empty mapping. *)
Lemma object_without_Data_installs_empty_registry b status bodyBytes
    members :
  responds (validatorsURL (beaconEndpoint b)) "GET" status bodyBytes ->
  status < 300 ->
  scan bodyBytes = Some (JObject members) ->
  member ["Data"%string] 0 members = None ->
  FetchValidators b =
    ({| beaconEndpoint := beaconEndpoint b; validatorSet := ∅ |}, None) /\
  (forall p, IsValidator (fst (FetchValidators b)) p = false) /\
  NumValidators (fst (FetchValidators b)) = 0.
Proof.
  intros Hresp Hst Hscan Hlack.
  assert (fetchAllValidators (beaconEndpoint b) = ({| Data := [] |}, None))
    as Hfetch.
  { unfold Server.fetchAllValidators. fold (validatorsURL (beaconEndpoint b)).
    rewrite (fetchBeacon_success _ _ _ _ _ Hresp Hst).
    unfold Unmarshal. rewrite Hscan. cbn [value allValidatorsResponse_target].
    unfold struct_value. rewrite (object_lacks_Data members _ _ Hlack).
    reflexivity. }
  rewrite (FetchValidators_ok b _ Hfetch). cbn [fst Data fold_left].
  repeat split.
Qed.

(** C10: when the source answers with a success status and a body that
    is valid JSON and lacks the [data] field (the value [null], or an
    object none of whose keys is the word [data] in any case of its
    letters, as the object without members is), [FetchValidators]
    returns no error and installs the empty mapping: no pubkey is a
    validator any more and the number of validators is 0. *)
Theorem missing_data_installs_empty_registry b status bodyBytes j :
  responds (validatorsURL (beaconEndpoint b)) "GET" status bodyBytes ->
  status < 300 ->
  scan bodyBytes = Some j ->
  Shape.lacksData j = true ->
  FetchValidators b =
    ({| beaconEndpoint := beaconEndpoint b; validatorSet := ∅ |}, None) /\
  (forall p, IsValidator (fst (FetchValidators b)) p = false) /\
  NumValidators (fst (FetchValidators b)) = 0.
Proof.
  intros Hresp Hst Hscan Hlack.
  destruct j as [| | | | |members]; try discriminate Hlack.
  - assert (fetchAllValidators (beaconEndpoint b)
            = ({| Data := [] |}, None)) as Hfetch.
    { unfold Server.fetchAllValidators.
      fold (validatorsURL (beaconEndpoint b)).
      rewrite (fetchBeacon_success _ _ _ _ _ Hresp Hst).
      unfold Unmarshal. rewrite Hscan. reflexivity. }
    rewrite (FetchValidators_ok b _ Hfetch). cbn [fst Data fold_left].
    repeat split.
  - apply (object_without_Data_installs_empty_registry b status bodyBytes
             members Hresp Hst Hscan).
    apply member_Data_None. cbn [Shape.lacksData] in Hlack.
    now apply negb_true_iff in Hlack.
Qed.

End World.

(** *** The properties at the sample world *)

Import Scenario.

Lemma failed_refresh_keeps_registry_witness :
  exists err,
    Server.FetchValidators table scan fault_text accepts refuses service
      = (service, Some err) /\
    (forall p,
        Server.IsValidator table
          (fst (Server.FetchValidators table scan fault_text accepts refuses
                  service)) p
        = Server.IsValidator table service p) /\
    NumValidators
      (fst (Server.FetchValidators table scan fault_text accepts refuses
              service))
      = NumValidators service.
Proof.
  apply (failed_refresh_keeps_registry table scan fault_text accepts refuses
           service).
  apply (client_refused scan accepts refuses _ _
           (transportError "connection refused")); reflexivity.
Defined.

Lemma successful_refresh_replaces_registry_witness :
  exists b1,
    Server.FetchValidators table scan fault_text accepts
      (answers 200 singleBody) service = (b1, None) /\
    Server.IsValidator table b1 "0xAB" = true /\
    Server.IsValidator table b1 "0xCD" = false.
Proof.
  destruct (successful_refresh_replaces_registry table scan fault_text accepts
              (answers 200 singleBody) service
              {| Data := [entry "0xAB"] |} eq_refl)
    as (b1 & Hfetch & _ & _ & Hiff & Hgone).
  exists b1. split; [exact Hfetch|]. split.
  - apply Hiff. simpl. left. reflexivity.
  - apply Hgone; [reflexivity|]. simpl. intros [H|[]]. discriminate H.
Defined.

Lemma lookup_ignores_case_witness :
  Server.IsValidator table service "0xCD"
    = Server.IsValidator table service "0xcd" /\
  Server.NumValidators
    (fst (Server.FetchValidators table scan fault_text accepts
            (answers 200 singleBody) service)) = 1.
Proof.
  destruct (lookup_ignores_case table scan fault_text accepts
              (answers 200 singleBody) service "0xCD" "0xcd" 200 singleBody)
    as (Hcase & _ & _ & Hcount & _).
  - repeat constructor.
  - split; reflexivity.
  - lia.
  - reflexivity.
  - split; [exact Hcase|exact Hcount].
Defined.

Lemma non_success_error_is_message_witness :
  exists err,
    Server.fetchBeacon scan fault_text accepts (answers 404 errorBody)
      "http://beacon/eth/v1/node/health" "GET"
      (zero : allValidatorsResponse)
    = (zero, Some err) /\
    Server.Error fault_text err = "state not found"%string.
Proof.
  destruct (non_success_error_is_message table scan fault_text accepts
              (answers 404 errorBody) "http://beacon/eth/v1/node/health" "GET"
              (zero : allValidatorsResponse) 404 errorBody errorMembers
              "state not found")
    as [(err & Hfetch & _ & Htext) _].
  - split; reflexivity.
  - lia.
  - reflexivity.
  - reflexivity.
  - reflexivity.
  - exists err. split; [exact Hfetch|exact Htext].
Defined.

Lemma missing_data_installs_empty_registry_witness :
  Server.FetchValidators table scan fault_text accepts (answers 200 "{}")
    service
  = ({| beaconEndpoint := "http://beacon"; validatorSet := ∅ |}, None) /\
  Server.IsValidator table
    (fst (Server.FetchValidators table scan fault_text accepts
            (answers 200 "{}") service)) "0xcd" = false.
Proof.
  destruct (missing_data_installs_empty_registry table scan fault_text accepts
              (answers 200 "{}") service 200 "{}" (JObject []))
    as (Hfetch & Hnone & _).
  - split; reflexivity.
  - lia.
  - reflexivity.
  - reflexivity.
  - split; [exact Hfetch|apply Hnone].
Defined.

(** A key in capitals names the field all the same: the response keyed
    [DATA] is read, and its three entries make two validators. *)
Example data_key_in_capitals_is_read :
  Shape.lacksData Samples.beaconJSON = false /\
  snd (Server.FetchValidators table (Samples.scanAs Samples.beaconJSON)
         fault_text accepts (answers 200 "body") service) = None /\
  NumValidators
    (fst (Server.FetchValidators table (Samples.scanAs Samples.beaconJSON)
            fault_text accepts (answers 200 "body") service)) = 2.
Proof. repeat split; vm_compute; reflexivity. Qed.

(** C10, as stated for every body that is valid JSON without a [data]
    field, fails on a body that is valid JSON and not an object: the
    array [[]] has no [data] field, the source answers 200 with it, and
    [FetchValidators] returns the decode error and keeps the mapping, the
    validator registered before still registered. *)
Lemma array_body_is_a_decode_error :
  scan "[]" = Some (JArray []) /\
  Server.responds accepts (answers 200 "[]")
    (validatorsURL (beaconEndpoint service)) "GET" 200 "[]" /\
  snd (Server.FetchValidators table scan fault_text accepts
         (answers 200 "[]") service)
  = Some
      (wrapError
         ("could not unmarshal response for "
            +:+ validatorsURL (beaconEndpoint service) +:+ " from []: "
            +:+ fault_text (TypeError {| Value := "array"; Type_ := KStruct |}))
         (jsonError (TypeError {| Value := "array"; Type_ := KStruct |}))) /\
  ~ (snd (Server.FetchValidators table scan fault_text accepts
            (answers 200 "[]") service) = None /\
     Server.NumValidators
       (fst (Server.FetchValidators table scan fault_text accepts
               (answers 200 "[]") service)) = 0) /\
  Server.IsValidator table
    (fst (Server.FetchValidators table scan fault_text accepts
            (answers 200 "[]") service)) "0xCD" = true.
Proof.
  split; [reflexivity|]. split; [split; reflexivity|].
  split; [vm_compute; reflexivity|]. split.
  - intros [H _]. vm_compute in H. discriminate H.
  - vm_compute. reflexivity.
Defined.

End ServerFacts.

(** ** The payload cache *)

Module DatastoreFacts.

Import GoString Datastore.

Lemma tagFork_forkTag f : tagFork (forkTag f) = Some f.
Proof. now destruct f. Qed.

(** A payload that validates is a payload with a fork variant and a
    non-empty body, and its serialized form reads back as itself. *)
Lemma MarshalPayload_Some p bytes :
  MarshalPayload p = Some bytes ->
  (exists f, Version p = Some f) /\ ExecutionBody p <> EmptyString /\
  UnmarshalPayload bytes = Some p.
Proof.
  unfold MarshalPayload. destruct p as [[f|] body]; simpl; [|discriminate].
  destruct body as [|c body]; [discriminate|]. intros [= <-].
  split; [eauto|]. split; [discriminate|].
  simpl. now rewrite tagFork_forkTag.
Qed.

Lemma MarshalPayload_valid p :
  (exists f, Version p = Some f) -> ExecutionBody p <> EmptyString ->
  exists bytes, MarshalPayload p = Some bytes.
Proof.
  unfold MarshalPayload. intros [f ->] Hb.
  destruct (ExecutionBody p); [contradiction|eauto].
Qed.


Section Expiry.

Variable defaultMemcachedExpirySeconds : Z.

Local Abbreviation Save :=
  (SaveExecutionPayload defaultMemcachedExpirySeconds).

(** What a save of a valid payload into a reachable store leaves. *)
Lemma Save_valid now m slot pk bh p bytes :
  reachable (client m) = true ->
  MarshalPayload p = Some bytes ->
  Save now m slot pk bh p =
  ({| keyPrefix := keyPrefix m;
      client :=
        {| items :=
             <[cacheKey (keyPrefix m) slot pk bh :=
                 {| Value := bytes;
                    Expiration := now + defaultMemcachedExpirySeconds |}]>
               (items (client m));
           reachable := true |} |}, None).
Proof.
  intros Hr Hm. unfold SaveExecutionPayload, Store_set.
  now rewrite Hm, Hr.
Qed.

(** C3: a valid payload saved under a key triple into a reachable store
    and read under the same triple before its time-to-live has elapsed
    comes back as it was saved, without error. *)
Theorem save_then_get_returns_payload now now1 m slot pk bh p :
  reachable (client m) = true ->
  (exists f, Version p = Some f) -> ExecutionBody p <> EmptyString ->
  now1 < now + defaultMemcachedExpirySeconds ->
  snd (Save now m slot pk bh p) = None /\
  GetExecutionPayload now1 (fst (Save now m slot pk bh p)) slot pk bh
    = (Some p, None).
Proof.
  intros Hr Hf Hb Hlive.
  destruct (MarshalPayload_valid p Hf Hb) as [bytes Hm].
  rewrite (Save_valid now m slot pk bh p bytes Hr Hm). split; [reflexivity|].
  unfold GetExecutionPayload, Store_get. cbn [fst keyPrefix client reachable items].
  rewrite lookup_insert_eq. cbn [Expiration Value].
  assert ((now1 <? now + defaultMemcachedExpirySeconds) = true) as ->
    by (apply Z.ltb_lt; lia).
  destruct (MarshalPayload_Some p bytes Hm) as (_ & _ & ->). reflexivity.
Qed.


(** C5: of two valid payloads saved in turn under one key triple, a read
    returns the second; the cache after the two saves is the cache after
    the second save alone, so that nothing of the first is left under
    the key. *)
Theorem second_save_overwrites now now1 now2 m slot pk bh p1 p2 :
  reachable (client m) = true ->
  (exists f, Version p1 = Some f) -> ExecutionBody p1 <> EmptyString ->
  (exists f, Version p2 = Some f) -> ExecutionBody p2 <> EmptyString ->
  now2 < now1 + defaultMemcachedExpirySeconds ->
  snd (Save now1 (fst (Save now m slot pk bh p1)) slot pk bh p2) = None /\
  GetExecutionPayload now2
    (fst (Save now1 (fst (Save now m slot pk bh p1)) slot pk bh p2))
    slot pk bh = (Some p2, None) /\
  fst (Save now1 (fst (Save now m slot pk bh p1)) slot pk bh p2)
    = fst (Save now1 m slot pk bh p2).
Proof.
  intros Hr Hf1 Hb1 Hf2 Hb2 Hlive.
  destruct (MarshalPayload_valid p1 Hf1 Hb1) as [bytes1 Hm1].
  destruct (MarshalPayload_valid p2 Hf2 Hb2) as [bytes2 Hm2].
  rewrite (Save_valid now m slot pk bh p1 bytes1 Hr Hm1). cbn [fst].
  rewrite (Save_valid now1 m slot pk bh p2 bytes2 Hr Hm2).
  rewrite Save_valid with (bytes := bytes2); [|reflexivity|assumption].
  cbn [fst snd keyPrefix client items]. split; [reflexivity|]. split.
  - unfold GetExecutionPayload, Store_get.
    cbn [keyPrefix client reachable items].
    rewrite lookup_insert_eq. cbn [Expiration Value].
    assert ((now2 <? now1 + defaultMemcachedExpirySeconds) = true) as ->
      by (apply Z.ltb_lt; lia).
    destruct (MarshalPayload_Some p2 bytes2 Hm2) as (_ & _ & ->). reflexivity.
  - now rewrite insert_insert_eq.
Qed.

(** C7: once the time-to-live has elapsed after the save of a valid
    payload, with no write to the key since, a read of the key triple
    answers absent without error, as it does for a key of a cache
    nothing was ever written to. *)
Theorem expired_entry_is_absent now now1 m slot pk bh p :
  reachable (client m) = true ->
  (exists f, Version p = Some f) -> ExecutionBody p <> EmptyString ->
  now + defaultMemcachedExpirySeconds <= now1 ->
  GetExecutionPayload now1 (fst (Save now m slot pk bh p)) slot pk bh
    = (None, None) /\
  GetExecutionPayload now1
    {| keyPrefix := keyPrefix m;
       client := {| items := ∅; reachable := true |} |} slot pk bh
    = (None, None).
Proof.
  intros Hr Hf Hb Hgone.
  destruct (MarshalPayload_valid p Hf Hb) as [bytes Hm].
  rewrite (Save_valid now m slot pk bh p bytes Hr Hm). split.
  - unfold GetExecutionPayload, Store_get.
    cbn [fst keyPrefix client reachable items].
    rewrite lookup_insert_eq. cbn [Expiration Value].
    assert ((now1 <? now + defaultMemcachedExpirySeconds) = false) as ->
      by (apply Z.ltb_ge; lia).
    reflexivity.
  - unfold GetExecutionPayload, Store_get.
    cbn [keyPrefix client reachable items]. now rewrite lookup_empty.
Qed.

End Expiry.

(** *** The properties at the sample cache, with a time-to-live of 45
    seconds *)

Import Scenario.

Lemma save_then_get_returns_payload_witness :
  GetExecutionPayload 1010
    (fst (SaveExecutionPayload 45 1000 cache 1 "0xAA" "0x09" payload1))
    1 "0xAA" "0x09"
  = (Some payload1, None).
Proof.
  apply (save_then_get_returns_payload 45 1000 1010 cache 1 "0xAA" "0x09"
           payload1).
  - reflexivity.
  - exists Capella. reflexivity.
  - discriminate.
  - lia.
Defined.


Lemma second_save_overwrites_witness :
  GetExecutionPayload 1020
    (fst (SaveExecutionPayload 45 1010
            (fst (SaveExecutionPayload 45 1000 cache 1 "0xAA" "0x09"
                    payload1))
            1 "0xAA" "0x09" payload2))
    1 "0xAA" "0x09"
  = (Some payload2, None).
Proof.
  apply (second_save_overwrites 45 1000 1010 1020 cache 1 "0xAA" "0x09"
           payload1 payload2).
  - reflexivity.
  - exists Capella. reflexivity.
  - discriminate.
  - exists Capella. reflexivity.
  - discriminate.
  - lia.
Defined.

Lemma expired_entry_is_absent_witness :
  GetExecutionPayload 1047
    (fst (SaveExecutionPayload 45 1000 cache 1 "0xAA" "0x09" payload1))
    1 "0xAA" "0x09"
  = (None, None).
Proof.
  apply (expired_entry_is_absent 45 1000 1047 cache 1 "0xAA" "0x09" payload1).
  - reflexivity.
  - exists Capella. reflexivity.
  - discriminate.
  - lia.
Defined.

End DatastoreFacts.

(** ** More on the validator service *)

Module ServerMore.

Import GoString GoJSON Server Shape GoStringFacts.

#[local] Set Warnings "-clear-no-such-hyp".

(** *** Decoding, member by member *)

(** An object is decoded by its selecting members alone. *)
Lemma object_selecting {A : Type} (fs : fields A) members v s :
  object fs members v s =
  fold_left
    (fun (acc : A * saved) (m : nat * json) =>
       match nth_error fs (fst m) with
       | Some f => snd f (snd m) (fst acc) (snd acc)
       | None => acc
       end)
    (selecting (List.map fst fs) members) (v, s).
Proof.
  revert v s. induction members as [|[key j] rest IH]; intros v s;
    [reflexivity|].
  simpl. unfold findField.
  destruct (fieldIndex (List.map fst fs) key) as [i|]; simpl.
  - destruct (nth_error fs i) as [f|]; simpl.
    + destruct (snd f j v s) as [v1 s1]. apply IH.
    + apply IH.
  - apply IH.
Qed.

(** Once a type error is saved it is the error of the decoding. *)
Lemma string_value_sticks j v e : snd (string_value j v (Some e)) = Some e.
Proof. now destruct j. Qed.

Lemma int_value_sticks j v e : snd (int_value j v (Some e)) = Some e.
Proof. destruct j; try reflexivity. simpl. now destruct (ParseInt lit). Qed.

Lemma object_sticks {A : Type} (fs : fields A) members v e :
  Forall (fun f => forall j v e, snd (snd f j v (Some e)) = Some e) fs ->
  snd (object fs members v (Some e)) = Some e.
Proof.
  intros Hfs. revert v. induction members as [|[key j] rest IH]; intros v;
    [reflexivity|].
  simpl. unfold findField.
  destruct (fieldIndex (List.map fst fs) key) as [i|]; simpl; [|apply IH].
  destruct (nth_error fs i) as [f|] eqn:Ef; simpl; [|apply IH].
  pose proof (proj1 (List.Forall_forall _ _) Hfs f (nth_error_In _ _ Ef) j v e)
    as Hf.
  destruct (snd f j v (Some e)) as [v1 s1] eqn:E.
  apply (f_equal snd) in E. simpl in E.
  assert (s1 = Some e) as -> by (rewrite <- E; exact Hf). apply IH.
Qed.

Lemma struct_value_sticks {A : Type} (fs : fields A) j v e :
  Forall (fun f => forall j v e, snd (snd f j v (Some e)) = Some e) fs ->
  snd (struct_value fs j v (Some e)) = Some e.
Proof.
  intros Hfs. destruct j; try reflexivity. now apply object_sticks.
Qed.

(** In a goal that opens a pair, name the pair and keep its equation. *)
Ltac open_pair x s E :=
  match goal with
  | |- context [match ?p with (_, _) => _ end] => destruct p as [x s] eqn:E
  end.

Ltac stuck_error s E H :=
  first
    [ simpl in H; subst s
    | apply (f_equal snd) in E; simpl in E;
      assert (s = Some _) as -> by (rewrite <- E; exact H) ].

Lemma validator_sticks j (v : validator) e : snd (value j v (Some e)) = Some e.
Proof.
  apply struct_value_sticks. repeat constructor. intros j0 v0 e0. simpl.
  pose proof (string_value_sticks j0 (Pubkey v0) e0) as H.
  open_pair x s1 E. stuck_error s1 E H. reflexivity.
Qed.

Lemma entry_sticks j (v : validatorResponseEntry) e :
  snd (value j v (Some e)) = Some e.
Proof.
  apply struct_value_sticks. repeat constructor. intros j0 v0 e0. simpl.
  pose proof (validator_sticks j0 (Validator v0) e0) as H.
  open_pair x s1 E. stuck_error s1 E H. reflexivity.
Qed.

Local Abbreviation entries :=
  (array (A := validatorResponseEntry) (H := validatorResponseEntry_target)).

Lemma array_sticks (elems : list json) e :
  snd (entries elems (Some e)) = Some e.
Proof.
  induction elems as [|j rest IH]; [reflexivity|]. simpl.
  pose proof (entry_sticks j zero e) as H.
  open_pair x s1 E. stuck_error s1 E H.
  destruct (entries rest (Some e)) as [xs s2]. exact IH.
Qed.

(** The entries of an array are decoded one by one, into fresh
    entries. *)
Lemma array_app (l1 l2 : list json) s :
  entries (l1 ++ l2) s =
  (fst (entries l1 s) ++ fst (entries l2 (snd (entries l1 s))),
   snd (entries l2 (snd (entries l1 s)))).
Proof.
  revert s. induction l1 as [|j rest IH]; intros s; simpl.
  - apply surjective_pairing.
  - open_pair x s1 E. rewrite IH.
    destruct (entries rest s1) as [xs s2]. reflexivity.
Qed.

(** A body of the shape of a validators response decodes, without type
    error, into the entries of the pubkeys it lists. *)
Lemma pubkeyOf_value j p s :
  pubkeyOf j = Some p ->
  value j (zero : validatorResponseEntry) s = (entryOf p, s).
Proof.
  destruct j as [| | | | |ms]; try discriminate. unfold pubkeyOf.
  cbn [value validatorResponseEntry_target struct_value].
  rewrite object_selecting. cbn [List.map fst validatorResponseEntry_fields].
  destruct (selecting ["validator"%string] ms) as [|[[|i] jv] [|m2 rest]];
    try destruct jv as [| | | | |vs]; try discriminate.
  - intros [= <-]. reflexivity.
  - cbn [fold_left nth_error fst snd validatorResponseEntry_fields].
    cbn [value validator_target struct_value zero Validator].
    rewrite object_selecting. cbn [List.map fst validator_fields].
    destruct (selecting ["pubkey"%string] vs) as [|[[|i] jp] [|m3 rest]];
      try destruct jp; try discriminate.
    + intros [= <-]. reflexivity.
    + intros [= <-]. reflexivity.
Qed.

Lemma pubkeysOfElems_array elems ps s :
  pubkeysOfElems elems = Some ps ->
  entries elems s = (List.map entryOf ps, s).
Proof.
  revert ps. induction elems as [|j rest IH]; intros ps; simpl.
  - intros [= <-]. reflexivity.
  - destruct (pubkeyOf j) as [p|] eqn:Ep; [|discriminate].
    destruct (pubkeysOfElems rest) as [qs|]; [|discriminate].
    intros [= <-].
    pose proof (pubkeyOf_value j p s Ep) as Hj. simpl in Hj. rewrite Hj.
    now rewrite (IH qs eq_refl).
Qed.

Lemma pubkeysOf_value j ps :
  pubkeysOf j = Some ps ->
  value j (zero : allValidatorsResponse) None
  = ({| Data := List.map entryOf ps |}, None).
Proof.
  destruct j as [| | | | |members]; try discriminate. unfold pubkeysOf.
  cbn [value allValidatorsResponse_target struct_value].
  rewrite object_selecting. cbn [List.map fst allValidatorsResponse_fields].
  destruct (selecting ["Data"%string] members) as [|[[|i] jd] [|m2 rest]];
    try destruct jd as [| | | |elems|]; try discriminate. intros Hps.
  cbn [fold_left nth_error fst snd allValidatorsResponse_fields].
  cbn [value slice_target slice_value zero Data].
  now rewrite (pubkeysOfElems_array elems ps None Hps).
Qed.

Lemma append_assoc (a b c : string) : (a +:+ b) +:+ c = a +:+ b +:+ c.
Proof.
  induction a as [|x a IH]; [reflexivity|].
  change (String x ((a +:+ b) +:+ c) = String x (a +:+ b +:+ c)).
  now f_equal.
Qed.

Section World.

Variable caseRanges_ToLower : Z -> Z.
Variable scan : string -> option json.
Variable fault_text : fault -> string.
Variable http_NewRequest_refuses : string -> string -> option error.
Variable http_DefaultClient_Do : Request -> result Response.

Local Abbreviation ToLower := (GoString.ToLower caseRanges_ToLower).
Local Abbreviation IsValidator := (Server.IsValidator caseRanges_ToLower).
Local Abbreviation Error := (Server.Error fault_text).
Local Abbreviation responds :=
  (Server.responds http_NewRequest_refuses http_DefaultClient_Do).
Local Abbreviation fetchBeacon :=
  (Server.fetchBeacon scan fault_text http_NewRequest_refuses
     http_DefaultClient_Do).
Local Abbreviation fetchAllValidators :=
  (Server.fetchAllValidators scan fault_text http_NewRequest_refuses
     http_DefaultClient_Do).
Local Abbreviation FetchValidators :=
  (Server.FetchValidators caseRanges_ToLower scan fault_text
     http_NewRequest_refuses http_DefaultClient_Do).
Local Abbreviation built l m0 :=
  (fold_left
     (fun (m : gmap string validatorResponseEntry) vs =>
        <[ToLower (Pubkey (Validator vs)) := vs]> m) l m0).

(** The four ways of [fetchBeacon], by what the network does. *)
Lemma fetchBeacon_cases {A : Type} `{Target A} url method (dst : A) :
  (exists err,
      http_NewRequest_refuses method url = Some err /\
      fetchBeacon url method dst =
      (dst, Some (wrapError ("invalid reqest for " +:+ url +:+ ": "
                               +:+ Error err) err))) \/
  (exists err,
      http_NewRequest_refuses method url = None /\
      http_DefaultClient_Do (beaconRequest url method) = Err err /\
      fetchBeacon url method dst =
      (dst, Some (wrapError ("client refused for " +:+ url +:+ ": "
                               +:+ Error err) err))) \/
  (exists status err,
      http_NewRequest_refuses method url = None /\
      http_DefaultClient_Do (beaconRequest url method)
        = Ok {| StatusCode := status; Body := Err err |} /\
      fetchBeacon url method dst =
      (dst, Some (wrapError ("could not read response body for " +:+ url
                               +:+ ": " +:+ Error err) err))) \/
  (exists status bodyBytes, responds url method status bodyBytes).
Proof.
  destruct (http_NewRequest_refuses method url) as [err|] eqn:Hreq.
  { left. exists err. split; [reflexivity|].
    now apply ServerFacts.fetchBeacon_request_refused. }
  destruct (http_DefaultClient_Do (beaconRequest url method))
    as [[status [bodyBytes|err]]|err] eqn:Hdo.
  - do 3 right. exists status, bodyBytes. now split.
  - right. right. left. exists status, err. repeat split.
    now apply ServerFacts.fetchBeacon_body_unreadable with (status := status).
  - right. left. exists err. repeat split.
    now apply ServerFacts.fetchBeacon_client_refused.
Qed.

Lemma responds_unique url method status1 body1 status2 body2 :
  responds url method status1 body1 -> responds url method status2 body2 ->
  status1 = status2 /\ body1 = body2.
Proof.
  intros [_ H1] [_ H2]. rewrite H1 in H2. now injection H2.
Qed.

(** *** [fetchBeacon] *)

(** X1: [fetchBeacon] returns [nil] exactly when the source answers with a
    status below 300 and a body that decodes into the destination. *)
Theorem fetchBeacon_nil_iff {A : Type} `{Target A} url method (dst : A) :
  snd (fetchBeacon url method dst) = None <->
  exists status bodyBytes,
    responds url method status bodyBytes /\ status < 300 /\
    snd (Unmarshal scan bodyBytes dst) = None.
Proof.
  split.
  - intros Hnil.
    destruct (fetchBeacon_cases url method dst)
      as [(err & _ & E)|[(err & _ & _ & E)|[(st & err & _ & _ & E)
         |(status & bodyBytes & Hresp)]]];
      try (rewrite E in Hnil; discriminate Hnil).
    exists status, bodyBytes. split; [assumption|].
    destruct (Z.lt_ge_cases status 300) as [Hlt|Hge].
    + split; [assumption|].
      rewrite (ServerFacts.fetchBeacon_success _ _ _ _ _ _ _ _ _ Hresp Hlt)
        in Hnil.
      cbn [snd] in Hnil.
      destruct (snd (Unmarshal scan bodyBytes dst)); [discriminate|reflexivity].
    + rewrite (ServerFacts.fetchBeacon_non_success _ _ _ _ _ _ _ _ _ Hresp Hge)
        in Hnil.
      discriminate Hnil.
  - intros (status & bodyBytes & Hresp & Hlt & Hdec).
    rewrite (ServerFacts.fetchBeacon_success _ _ _ _ _ _ _ _ _ Hresp Hlt).
    cbn [snd]. now rewrite Hdec.
Qed.

(** X2: Unless the source answers with a status below 300, [fetchBeacon]
    returns an error and the destination as it was given: a refused
    request, a refused connection, an unreadable body and a status of 300
    or more all leave it alone. *)
Theorem fetchBeacon_without_success_keeps_dst {A : Type} `{Target A}
    url method (dst : A) :
  (forall status bodyBytes,
      responds url method status bodyBytes -> 300 <= status) ->
  fst (fetchBeacon url method dst) = dst /\
  exists err, snd (fetchBeacon url method dst) = Some err.
Proof.
  intros Hno.
  destruct (fetchBeacon_cases url method dst)
    as [(err & _ & E)|[(err & _ & _ & E)|[(st & err & _ & _ & E)
       |(status & bodyBytes & Hresp)]]];
    try (rewrite E; split; [reflexivity|eauto]).
  rewrite (ServerFacts.fetchBeacon_non_success _ _ _ _ _ _ _ _ _ Hresp
             (Hno _ _ Hresp)).
  split; [reflexivity|eauto].
Qed.

(** X3: Every error of [fetchBeacon] but one names the URL and ends with the
    text of the error it wraps; the one is the message of a non-success
    response, passed on as it came. *)
Theorem fetchBeacon_error_forms {A : Type} `{Target A} url method (dst : A)
    err :
  snd (fetchBeacon url method dst) = Some err ->
  (exists status bodyBytes,
      responds url method status bodyBytes /\ 300 <= status /\
      snd (Unmarshal scan bodyBytes (zero : errorContent)) = None /\
      err = errors_New
              (Message (fst (Unmarshal scan bodyBytes
                               (zero : errorContent))))) \/
  (exists text cause,
      err = wrapError text cause /\ contains text url /\
      exists pre, text = pre +:+ Error cause).
Proof.
  intros Herr.
  destruct (fetchBeacon_cases url method dst)
    as [(e & _ & E)|[(e & _ & _ & E)|[(st & e & _ & _ & E)
       |(status & bodyBytes & Hresp)]]].
  - rewrite E in Herr. injection Herr as <-. right. do 2 eexists.
    split; [reflexivity|]. split.
    + exists "invalid reqest for "%string. eexists. reflexivity.
    + exists ("invalid reqest for " +:+ url +:+ ": ").
      now rewrite !append_assoc.
  - rewrite E in Herr. injection Herr as <-. right. do 2 eexists.
    split; [reflexivity|]. split.
    + exists "client refused for "%string. eexists. reflexivity.
    + exists ("client refused for " +:+ url +:+ ": ").
      now rewrite !append_assoc.
  - rewrite E in Herr. injection Herr as <-. right. do 2 eexists.
    split; [reflexivity|]. split.
    + exists "could not read response body for "%string. eexists.
      reflexivity.
    + exists ("could not read response body for " +:+ url +:+ ": ").
      now rewrite !append_assoc.
  - destruct (Z.lt_ge_cases status 300) as [Hlt|Hge].
    + rewrite (ServerFacts.fetchBeacon_success _ _ _ _ _ _ _ _ _ Hresp Hlt)
        in Herr.
      cbn [snd] in Herr.
      destruct (snd (Unmarshal scan bodyBytes dst)) as [e|]; [|discriminate].
      injection Herr as <-. right. do 2 eexists.
      split; [reflexivity|]. split.
      * exists "could not unmarshal response for "%string. eexists.
        reflexivity.
      * exists ("could not unmarshal response for " +:+ url +:+ " from "
                  +:+ bodyBytes +:+ ": ").
        now rewrite !append_assoc.
    + rewrite (ServerFacts.fetchBeacon_non_success _ _ _ _ _ _ _ _ _ Hresp Hge)
        in Herr.
      destruct (snd (Unmarshal scan bodyBytes (zero : errorContent)))
        as [e|] eqn:Hdec; cbn [snd] in Herr; injection Herr as <-.
      * right. do 2 eexists. split; [reflexivity|]. split.
        -- exists "could not unmarshal error response from beacon node for "%string.
           eexists. reflexivity.
        -- exists ("could not unmarshal error response from beacon node for "
                     +:+ url +:+ " from " +:+ bodyBytes +:+ ": ").
           now rewrite !append_assoc.
      * left. exists status, bodyBytes. split; [exact Hresp|].
        split; [exact Hge|]. split; [exact Hdec|reflexivity].
Qed.

(** X4: A body that is not JSON is an error whatever the status, the cause
    being the syntax error of the decoder; the destination is left
    alone. *)
Theorem fetchBeacon_invalid_json {A : Type} `{Target A} url method (dst : A)
    status bodyBytes :
  responds url method status bodyBytes ->
  scan bodyBytes = None ->
  fst (fetchBeacon url method dst) = dst /\
  exists text,
    snd (fetchBeacon url method dst)
    = Some (wrapError text (jsonError SyntaxError)).
Proof.
  intros Hresp Hscan.
  destruct (Z.lt_ge_cases status 300) as [Hlt|Hge].
  - rewrite (ServerFacts.fetchBeacon_success _ _ _ _ _ _ _ _ _ Hresp Hlt).
    unfold Unmarshal. rewrite Hscan. cbn [fst snd]. eauto.
  - rewrite (ServerFacts.fetchBeacon_non_success _ _ _ _ _ _ _ _ _ Hresp Hge).
    unfold Unmarshal. rewrite Hscan. cbn [fst snd]. eauto.
Qed.

(** X5: A non-success response whose body is an object without a [message]
    member, decoding without type error, gives an error of empty
    text. *)
Theorem non_success_without_message {A : Type} `{Target A} url method
    (dst : A) status bodyBytes members :
  responds url method status bodyBytes ->
  300 <= status ->
  scan bodyBytes = Some (JObject members) ->
  member ["code"; "message"]%string 1 members = None ->
  snd (value (JObject members) (zero : errorContent) None) = None ->
  fetchBeacon url method dst = (dst, Some (errors_New EmptyString)) /\
  Error (errors_New EmptyString) = EmptyString.
Proof.
  intros Hresp Hge Hscan Hlack Hshape.
  rewrite (ServerFacts.fetchBeacon_non_success _ _ _ _ _ _ _ _ _ Hresp Hge).
  unfold Unmarshal. rewrite Hscan.
  destruct (value (JObject members) (zero : errorContent) None)
    as [ec sv] eqn:Hval.
  simpl in Hshape. subst sv. cbn [fst snd option_map].
  assert (Message ec = EmptyString) as ->; [|now split].
  assert (ec = fst (value (JObject members) (zero : errorContent) None))
    as -> by now rewrite Hval.
  exact (ServerFacts.object_lacks_message members zero None Hlack).
Qed.

Lemma errorContent_fields_stick :
  Forall (fun f : string * (json -> errorContent -> saved
                            -> errorContent * saved) =>
            forall j v e, snd (snd f j v (Some e)) = Some e)
    errorContent_fields.
Proof.
  repeat constructor; intros j v e; simpl.
  - pose proof (int_value_sticks j (Code v) e) as Hs.
    destruct (int_value j (Code v) (Some e)). exact Hs.
  - pose proof (string_value_sticks j (Message v) e) as Hs.
    destruct (string_value j (Message v) (Some e)). exact Hs.
Qed.

Lemma notString_error j v : notString j = true ->
  exists e, snd (string_value j v None) = Some e.
Proof. destruct j; try discriminate; intros _; simpl; eauto. Qed.

Lemma notInt_error j v : notInt j = true ->
  exists e, snd (int_value j v None) = Some e.
Proof.
  destruct j; try discriminate; simpl; eauto.
  destruct (ParseInt lit); [discriminate|]. simpl. eauto.
Qed.

Lemma object_misfit members key j (v : errorContent) s :
  In (key, j) members ->
  (fieldIndex ["code"; "message"]%string key = Some 0%nat /\
   notInt j = true) \/
  (fieldIndex ["code"; "message"]%string key = Some 1%nat /\
   notString j = true) ->
  exists e, snd (object errorContent_fields members v s) = Some e.
Proof.
  intros Hin Hbad. destruct s as [e|].
  { exists e. apply object_sticks, errorContent_fields_stick. }
  revert v. induction members as [|[k0 j0] rest IH]; intros v; [destruct Hin|].
  simpl.
  open_pair v1 s1 Estep. destruct s1 as [e|].
  { exists e. apply object_sticks, errorContent_fields_stick. }
  destruct Hin as [[= -> ->]|Hin]; [|now apply IH].
  exfalso. unfold findField in Estep. simpl List.map in Estep.
  destruct Hbad as [[Hi Hj]|[Hi Hj]]; rewrite Hi in Estep; simpl in Estep.
  - destruct (notInt_error j (Code v) Hj) as [e He].
    destruct (int_value j (Code v) None) as [x sx]. simpl in He. subst sx.
    discriminate Estep.
  - destruct (notString_error j (Message v) Hj) as [e He].
    destruct (string_value j (Message v) None) as [x sx]. simpl in He.
    subst sx. discriminate Estep.
Qed.

(** X6: A non-success response whose body holds a [code] that is no 64-bit
    integer, or a [message] that is no string, is reported as a body
    that cannot be decoded; the message of the source is not the
    error. *)
Theorem non_success_misfit_is_decode_error {A : Type} `{Target A} url method
    (dst : A) status bodyBytes members key j :
  responds url method status bodyBytes ->
  300 <= status ->
  scan bodyBytes = Some (JObject members) ->
  In (key, j) members ->
  (fieldIndex ["code"; "message"]%string key = Some 0%nat /\
   notInt j = true) \/
  (fieldIndex ["code"; "message"]%string key = Some 1%nat /\
   notString j = true) ->
  exists text e,
    fetchBeacon url method dst
    = (dst, Some (wrapError text (jsonError (TypeError e)))) /\
    hasPrefix text "could not unmarshal error response from beacon node for ".
Proof.
  intros Hresp Hge Hscan Hin Hbad.
  rewrite (ServerFacts.fetchBeacon_non_success _ _ _ _ _ _ _ _ _ Hresp Hge).
  unfold Unmarshal. rewrite Hscan.
  destruct (object_misfit members key j zero None Hin Hbad) as [e He].
  cbn [value errorContent_target struct_value].
  destruct (object errorContent_fields members zero None) as [ec sv].
  simpl in He. subst sv. cbn [fst snd option_map].
  do 2 eexists. split; [reflexivity|]. eexists. reflexivity.
Qed.

(** *** [FetchValidators] *)

Local Abbreviation lowered l :=
  (List.map (fun vs => ToLower (Pubkey (Validator vs))) l).

Lemma fetchAllValidators_success b status bodyBytes :
  responds (validatorsURL (beaconEndpoint b)) "GET" status bodyBytes ->
  status < 300 ->
  fetchAllValidators (beaconEndpoint b) =
  (fst (Unmarshal scan bodyBytes (zero : allValidatorsResponse)),
   match snd (Unmarshal scan bodyBytes (zero : allValidatorsResponse)) with
   | Some e =>
     Some (wrapError
             ("could not unmarshal response for "
                +:+ validatorsURL (beaconEndpoint b) +:+ " from "
                +:+ bodyBytes +:+ ": " +:+ Error (jsonError e))
             (jsonError e))
   | None => None
   end).
Proof.
  intros Hresp Hlt. unfold Server.fetchAllValidators.
  fold (validatorsURL (beaconEndpoint b)).
  apply (ServerFacts.fetchBeacon_success _ _ _ _ _ _ _ _ _ Hresp Hlt).
Qed.

Lemma built_dom l (m0 : gmap string validatorResponseEntry) :
  dom (built l m0) = list_to_set (lowered l) ∪ dom m0.
Proof.
  revert m0. induction l as [|x l IH]; intros m0; simpl.
  - set_solver.
  - rewrite IH, dom_insert_L. set_solver.
Qed.

Lemma built_lookup_other l (m0 : gmap string validatorResponseEntry) k :
  ~ In k (lowered l) -> built l m0 !! k = m0 !! k.
Proof.
  revert m0. induction l as [|x l IH]; intros m0 Hk; simpl; [reflexivity|].
  simpl in Hk. rewrite IH by tauto. apply lookup_insert_ne. tauto.
Qed.

Lemma size_list_to_set_le (l : list string) :
  (size (list_to_set l : gset string) <= length l)%nat.
Proof.
  induction l as [|x l IH].
  - rewrite list_to_set_nil, size_empty. reflexivity.
  - rewrite list_to_set_cons, size_union_alt, size_singleton. cbn [length].
    assert (size (list_to_set l ∖ {[x]} : gset string)
            <= size (list_to_set l : gset string))%nat
      by (apply subseteq_size; set_solver).
    lia.
Qed.


(** X7: A response of the expected shape registers the pubkeys it lists:
    with a success status and a body that is an object with one [data]
    array of entries, each naming its pubkey under [validator] and
    [pubkey], members that select no field being ignored at every level,
    [FetchValidators] returns no error and a pubkey is a validator
    exactly when its lower-casing is the lower-casing of a listed
    pubkey. *)
Theorem expected_response_registers_listed_pubkeys b status bodyBytes j ps :
  responds (validatorsURL (beaconEndpoint b)) "GET" status bodyBytes ->
  status < 300 ->
  scan bodyBytes = Some j ->
  pubkeysOf j = Some ps ->
  FetchValidators b =
    ({| beaconEndpoint := beaconEndpoint b;
        validatorSet := built (List.map entryOf ps) ∅ |}, None) /\
  (forall p,
      IsValidator (fst (FetchValidators b)) p = true <->
      In (ToLower p) (List.map ToLower ps)).
Proof.
  intros Hresp Hlt Hscan Hps.
  assert (fetchAllValidators (beaconEndpoint b)
          = ({| Data := List.map entryOf ps |}, None)) as Hfetch.
  { rewrite (fetchAllValidators_success b _ _ Hresp Hlt).
    unfold Unmarshal. rewrite Hscan, (pubkeysOf_value j ps Hps). reflexivity. }
  rewrite (ServerFacts.FetchValidators_ok _ _ _ _ _ b _ Hfetch).
  cbn [Data fst]. split; [reflexivity|]. intros p.
  rewrite ServerFacts.IsValidator_true. cbn [validatorSet].
  rewrite ServerFacts.built_lookup_is_Some, lookup_empty, List.map_map.
  cbn [entryOf Validator Pubkey]. split; [|now left].
  intros [Hin|[x Hx]]; [assumption|discriminate].
Qed.

(** X8: After a successful refresh the number of validators is the number of
    distinct lower-cased pubkeys of the response, at most the number of
    its entries. *)
Theorem count_is_distinct_lowered_pubkeys b vd :
  fetchAllValidators (beaconEndpoint b) = (vd, None) ->
  NumValidators (fst (FetchValidators b))
  = Z.of_nat (size (list_to_set (lowered (Data vd)) : gset string))
    mod 2 ^ 64 /\
  NumValidators (fst (FetchValidators b)) <= Z.of_nat (length (Data vd)).
Proof.
  intros Hfetch.
  rewrite (ServerFacts.FetchValidators_ok _ _ _ _ _ b vd Hfetch).
  cbn [fst]. unfold NumValidators. cbn [validatorSet].
  rewrite <- size_dom, built_dom, dom_empty_L, (right_id_L ∅ (∪)).
  split; [reflexivity|].
  pose proof (size_list_to_set_le (lowered (Data vd))) as Hle.
  rewrite List.length_map in Hle.
  etransitivity; [apply Z.mod_le; lia|]. lia.
Qed.


(** X10: Of the entries of a response that share a lower-cased pubkey, the
    last one is the entry kept, with its pubkey as it was sent. *)
Theorem last_entry_of_a_pubkey_wins b vd l1 vs l2 :
  fetchAllValidators (beaconEndpoint b) = (vd, None) ->
  Data vd = l1 ++ vs :: l2 ->
  ~ In (ToLower (Pubkey (Validator vs))) (lowered l2) ->
  validatorSet (fst (FetchValidators b)) !! ToLower (Pubkey (Validator vs))
  = Some vs.
Proof.
  intros Hfetch Hdata Hlast.
  rewrite (ServerFacts.FetchValidators_ok _ _ _ _ _ b vd Hfetch).
  cbn [fst validatorSet]. rewrite Hdata, fold_left_app. simpl.
  rewrite built_lookup_other by assumption. apply lookup_insert_eq.
Qed.

(** X11: A successful refresh does not depend on the mapping it replaces:
    from any service of the same endpoint it gives the same service, so
    that refreshing twice with the same answer is refreshing once. *)
Theorem refresh_forgets_previous_mapping b b1 :
  beaconEndpoint b1 = beaconEndpoint b ->
  snd (FetchValidators b) = None ->
  FetchValidators b1 = FetchValidators b /\
  FetchValidators (fst (FetchValidators b)) = FetchValidators b.
Proof.
  unfold Server.FetchValidators. intros Hep.
  rewrite Hep.
  destruct (fetchAllValidators (beaconEndpoint b)) as [vd [e|]] eqn:Hfetch;
    [discriminate|].
  intros _. split; [reflexivity|]. cbn [fst beaconEndpoint].
  now rewrite Hfetch.
Qed.

(** *** Responses of another shape *)

Lemma slice_value_sticks j (v : list validatorResponseEntry) e :
  snd (slice_value j v (Some e)) = Some e.
Proof. destruct j; try reflexivity. apply array_sticks. Qed.

Lemma allValidatorsResponse_fields_stick :
  Forall (fun f : string * (json -> allValidatorsResponse -> saved
                            -> allValidatorsResponse * saved) =>
            forall j v e, snd (snd f j v (Some e)) = Some e)
    allValidatorsResponse_fields.
Proof.
  repeat constructor; intros j v e; simpl.
  pose proof (slice_value_sticks j (Data v) e) as Hs.
  open_pair x s1 E. stuck_error s1 E Hs. reflexivity.
Qed.

(** A [data] member that does not decode fails the decoding of the
    response. *)
Lemma object_Data_misfit members key j (v : allValidatorsResponse) s :
  In (key, j) members ->
  fieldIndex ["Data"%string] key = Some 0%nat ->
  (forall d, exists e,
        snd (slice_value (A := validatorResponseEntry) j d None) = Some e) ->
  exists e, snd (object allValidatorsResponse_fields members v s) = Some e.
Proof.
  intros Hin Hi Hbad. destruct s as [e|].
  { exists e. apply object_sticks, allValidatorsResponse_fields_stick. }
  revert v. induction members as [|[k0 j0] rest IH]; intros v; [destruct Hin|].
  simpl. open_pair v1 s1 Estep. destruct s1 as [e|].
  { exists e. apply object_sticks, allValidatorsResponse_fields_stick. }
  destruct Hin as [[= -> ->]|Hin]; [|now apply IH].
  exfalso. unfold findField in Estep. simpl List.map in Estep.
  rewrite Hi in Estep. simpl in Estep.
  destruct (Hbad (Data v)) as [e He].
  destruct (slice_value j (Data v) None) as [x sx]. simpl in He. subst sx.
  discriminate Estep.
Qed.

Lemma refresh_fails_on_Data_misfit b status bodyBytes members key j :
  responds (validatorsURL (beaconEndpoint b)) "GET" status bodyBytes ->
  status < 300 ->
  scan bodyBytes = Some (JObject members) ->
  In (key, j) members ->
  fieldIndex ["Data"%string] key = Some 0%nat ->
  (forall d, exists e,
        snd (slice_value (A := validatorResponseEntry) j d None) = Some e) ->
  exists text e,
    FetchValidators b = (b, Some (wrapError text (jsonError (TypeError e)))).
Proof.
  intros Hresp Hlt Hscan Hin Hi Hbad.
  destruct (object_Data_misfit members key j zero None Hin Hi Hbad)
    as [e He].
  assert (exists vd text,
             fetchAllValidators (beaconEndpoint b)
             = (vd, Some (wrapError text (jsonError (TypeError e)))))
    as (vd & text & Hfetch).
  { rewrite (fetchAllValidators_success b _ _ Hresp Hlt).
    unfold Unmarshal. rewrite Hscan.
    cbn [value allValidatorsResponse_target struct_value].
    destruct (object allValidatorsResponse_fields members zero None)
      as [vd sv].
    simpl in He. subst sv. cbn [fst snd option_map]. eauto. }
  exists text, e. apply (ServerFacts.FetchValidators_error _ _ _ _ _ b vd).
  exact Hfetch.
Qed.

(** X12: A response whose [data] is neither an array nor [null] (an object, a
    string, a number, a boolean) fails the refresh with a decode error
    and leaves the service as it was. *)
Theorem data_of_wrong_type_fails_refresh b status bodyBytes members key j :
  responds (validatorsURL (beaconEndpoint b)) "GET" status bodyBytes ->
  status < 300 ->
  scan bodyBytes = Some (JObject members) ->
  In (key, j) members ->
  fieldIndex ["Data"%string] key = Some 0%nat ->
  notArray j = true ->
  exists text e,
    FetchValidators b = (b, Some (wrapError text (jsonError (TypeError e)))).
Proof.
  intros Hresp Hlt Hscan Hin Hi Hj.
  apply (refresh_fails_on_Data_misfit b status bodyBytes members key j);
    try assumption.
  intros d. destruct j; try discriminate Hj; simpl; eauto.
Qed.

(** X13: One entry that does not decode fails the whole refresh: the entries
    that do decode are not registered, and the service is as it was. *)
Theorem one_bad_entry_fails_refresh b status bodyBytes members key elems
    j e :
  responds (validatorsURL (beaconEndpoint b)) "GET" status bodyBytes ->
  status < 300 ->
  scan bodyBytes = Some (JObject members) ->
  In (key, JArray elems) members ->
  fieldIndex ["Data"%string] key = Some 0%nat ->
  In j elems ->
  snd (value j (zero : validatorResponseEntry) None) = Some e ->
  exists text e1,
    FetchValidators b = (b, Some (wrapError text (jsonError (TypeError e1)))).
Proof.
  intros Hresp Hlt Hscan Hin Hi Hj He.
  apply (refresh_fails_on_Data_misfit b status bodyBytes members key
           (JArray elems)); try assumption.
  intros d. cbn [slice_value].
  destruct (in_split _ _ Hj) as (l1 & l2 & ->).
  rewrite array_app. cbn [snd].
  destruct (snd (entries l1 None)) as [e1|] eqn:E1.
  - exists e1. apply array_sticks.
  - exists e. simpl. open_pair x s1 Ex. stuck_error s1 Ex He.
    pose proof (array_sticks l2 e) as Hs.
    destruct (entries l2 (Some e)) as [xs s2]. exact Hs.
Qed.

(** X14: A response whose only [data] member is [null] is a success that
    empties the mapping. *)
Theorem null_data_installs_empty_registry b status bodyBytes members :
  responds (validatorsURL (beaconEndpoint b)) "GET" status bodyBytes ->
  status < 300 ->
  scan bodyBytes = Some (JObject members) ->
  selecting ["Data"%string] members = [(0%nat, JNull)] ->
  FetchValidators b =
    ({| beaconEndpoint := beaconEndpoint b; validatorSet := ∅ |}, None).
Proof.
  intros Hresp Hlt Hscan Hsel.
  assert (fetchAllValidators (beaconEndpoint b) = ({| Data := [] |}, None))
    as Hfetch.
  { rewrite (fetchAllValidators_success b _ _ Hresp Hlt).
    unfold Unmarshal. rewrite Hscan.
    cbn [value allValidatorsResponse_target struct_value].
    rewrite object_selecting.
    cbn [List.map fst allValidatorsResponse_fields]. rewrite Hsel.
    reflexivity. }
  now rewrite (ServerFacts.FetchValidators_ok _ _ _ _ _ b _ Hfetch).
Qed.

(** X15: An entry without a [validator] member is registered all the same,
    under the empty pubkey: after the refresh the empty string is a
    validator. *)
Theorem entry_without_validator_registers_empty_pubkey b status bodyBytes
    members elems ms :
  responds (validatorsURL (beaconEndpoint b)) "GET" status bodyBytes ->
  status < 300 ->
  scan bodyBytes = Some (JObject members) ->
  selecting ["Data"%string] members = [(0%nat, JArray elems)] ->
  In (JObject ms) elems ->
  selecting ["validator"%string] ms = [] ->
  snd (FetchValidators b) = None ->
  IsValidator (fst (FetchValidators b)) EmptyString = true.
Proof.
  intros Hresp Hlt Hscan Hsel Hin Hms Hok.
  assert (fst (Unmarshal scan bodyBytes (zero : allValidatorsResponse))
          = {| Data := fst (entries elems None) |}) as Hdata.
  { unfold Unmarshal. rewrite Hscan.
    cbn [value allValidatorsResponse_target struct_value].
    rewrite object_selecting.
    cbn [List.map fst allValidatorsResponse_fields]. rewrite Hsel.
    cbn [fold_left nth_error fst snd allValidatorsResponse_fields].
    cbn [value slice_target slice_value zero Data].
    destruct (entries elems None) as [xs s1]. reflexivity. }
  assert (In (zero : validatorResponseEntry) (fst (entries elems None)))
    as Hzero.
  { destruct (in_split _ _ Hin) as (l1 & l2 & ->).
    rewrite array_app. cbn [fst]. apply in_or_app. right.
    generalize (snd (entries l1 None)). intros s. simpl.
    rewrite object_selecting.
    cbn [List.map fst validatorResponseEntry_fields]. rewrite Hms.
    cbn [fold_left]. destruct (entries l2 s). now left. }
  pose proof (fetchAllValidators_success b _ _ Hresp Hlt) as Hfetch.
  unfold Server.FetchValidators in *. rewrite Hfetch in *.
  destruct (snd (Unmarshal scan bodyBytes (zero : allValidatorsResponse)));
    [discriminate Hok|].
  cbn [fst]. rewrite Hdata. cbn [Data].
  apply ServerFacts.IsValidator_true. cbn [validatorSet].
  apply ServerFacts.built_lookup_is_Some. left.
  apply (in_map (fun vs => ToLower (Pubkey (Validator vs))) _ _ Hzero).
Qed.

End World.

(** *** ASCII pubkeys *)

Lemma lowerByte_idem c : lowerByte (lowerByte c) = lowerByte c.
Proof.
  apply byteZ_inj. rewrite (byteZ_lowerByte (lowerByte c)).
  rewrite (byteZ_lowerByte c).
  destruct ((0x41 <=? byteZ c) && (byteZ c <=? 0x5A)) eqn:Ec.
  - assert ((0x41 <=? byteZ c + 0x20) && (byteZ c + 0x20 <=? 0x5A) = false)
      as -> by lia.
    reflexivity.
  - now rewrite Ec.
Qed.

Lemma map_lowerByte_idem s :
  GoString.map lowerByte (GoString.map lowerByte s) = GoString.map lowerByte s.
Proof.
  induction s as [|c s IH]; simpl; [reflexivity|].
  now rewrite lowerByte_idem, IH.
Qed.

Lemma map_lowerByte_isASCII s :
  isASCII s = true -> isASCII (GoString.map lowerByte s) = true.
Proof.
  unfold isASCII. induction s as [|c s IH]; simpl; [reflexivity|].
  intros H. apply andb_true_iff in H as [Hc Hs].
  rewrite (IH Hs), andb_true_r. unfold RuneSelf in *.
  rewrite byteZ_lowerByte.
  destruct ((0x41 <=? byteZ c) && (byteZ c <=? 0x5A)) eqn:Ec; lia.
Qed.

Lemma ToLower_idem_ascii table s :
  isASCII s = true ->
  GoString.ToLower table (GoString.ToLower table s) = GoString.ToLower table s.
Proof.
  intros Hs. rewrite (ToLower_ascii table s Hs).
  rewrite (ToLower_ascii table _ (map_lowerByte_isASCII s Hs)).
  apply map_lowerByte_idem.
Qed.

Lemma map_lowerByte_caseVariant s t :
  GoString.map lowerByte s = GoString.map lowerByte t -> caseVariant s t.
Proof.
  revert t. induction s as [|c s IH]; intros [|d t]; simpl;
    try discriminate.
  - constructor.
  - intros [= Hc Hs]. constructor; [assumption|now apply IH].
Qed.

(** Among ASCII strings, the strings of one lower-casing are the case
    variants of one another. *)
Lemma ToLower_eq_caseVariant table s t :
  isASCII s = true -> isASCII t = true ->
  GoString.ToLower table s = GoString.ToLower table t <-> caseVariant s t.
Proof.
  intros Hs Ht. split; [|apply ToLower_caseVariant].
  rewrite (ToLower_ascii table s Hs), (ToLower_ascii table t Ht).
  apply map_lowerByte_caseVariant.
Qed.

Section Registry.

Variable caseRanges_ToLower : Z -> Z.
Variable scan : string -> option json.
Variable fault_text : fault -> string.
Variable http_NewRequest_refuses : string -> string -> option error.

Local Abbreviation ToLower := (GoString.ToLower caseRanges_ToLower).
Local Abbreviation IsValidator := (Server.IsValidator caseRanges_ToLower).
Local Abbreviation refreshed :=
  (Lifecycle.refreshed caseRanges_ToLower scan fault_text
     http_NewRequest_refuses).

(** X16: The lower-cased form of an ASCII pubkey is looked up as the pubkey
    itself is. *)
Theorem lowered_pubkey_is_looked_up_alike b p :
  isASCII p = true ->
  IsValidator b (ToLower p) = IsValidator b p.
Proof.
  intros Hp. unfold Server.IsValidator.
  now rewrite (ToLower_idem_ascii caseRanges_ToLower p Hp).
Qed.

(** X17: No false positives among ASCII pubkeys: after a successful refresh
    with a response of ASCII pubkeys, an ASCII pubkey is a validator
    exactly when it differs from a pubkey of the response in the case of
    letters at most. *)
Theorem only_case_variants_are_validators http_DefaultClient_Do b vd p :
  Server.fetchAllValidators scan fault_text http_NewRequest_refuses
    http_DefaultClient_Do (beaconEndpoint b) = (vd, None) ->
  isASCII p = true ->
  List.forallb (fun vs => isASCII (Pubkey (Validator vs))) (Data vd) = true ->
  IsValidator
    (fst (Server.FetchValidators caseRanges_ToLower scan fault_text
            http_NewRequest_refuses http_DefaultClient_Do b)) p = true <->
  exists vs, In vs (Data vd) /\ caseVariant p (Pubkey (Validator vs)).
Proof.
  intros Hfetch Hp Hall.
  rewrite (ServerFacts.FetchValidators_ok _ _ _ _ _ b vd Hfetch). cbn [fst].
  rewrite ServerFacts.IsValidator_true. cbn [validatorSet].
  rewrite ServerFacts.built_lookup_is_Some, lookup_empty.
  rewrite List.forallb_forall in Hall. split.
  - intros [Hin|[x Hx]]; [|discriminate].
    apply List.in_map_iff in Hin as (vs & Hk & Hin).
    exists vs. split; [assumption|].
    apply (ToLower_eq_caseVariant caseRanges_ToLower); auto.
  - intros (vs & Hin & Hcv). left. apply List.in_map_iff. exists vs.
    split; [|assumption]. symmetry.
    now apply ToLower_caseVariant.
Qed.

(** Every key of a refreshed service is the lower-cased pubkey of its
    entry. *)
Lemma refreshed_keys beaconEndpoint answers k vs :
  validatorSet (refreshed beaconEndpoint answers) !! k = Some vs ->
  k = ToLower (Pubkey (Validator vs)).
Proof.
  revert k vs. induction answers as [|a answers IH] using rev_ind;
    intros k vs.
  - unfold Lifecycle.refreshed. simpl. now rewrite lookup_empty.
  - unfold Lifecycle.refreshed in *. rewrite fold_left_app. cbn [fold_left].
    set (b := fold_left _ answers _) in *.
    unfold Server.FetchValidators.
    destruct (Server.fetchAllValidators _ _ _ _ _) as [vd [e|]];
      cbn [fst validatorSet]; [apply IH|].
    intros Hk.
    destruct (ServerFacts.built_lookup_Some _ _ _ _ _ Hk) as [[_ Hkey]|Hm];
      [now symmetry|now rewrite lookup_empty in Hm].
Qed.

(** X18: Whatever the network answered over the life of a service, its
    endpoint is the one it was made with, every key of its mapping is the
    lower-cased pubkey of the entry under it, and every entry it holds is
    found under its own pubkey. *)
Theorem registry_invariant beaconEndpoint answers :
  Server.beaconEndpoint (refreshed beaconEndpoint answers) = beaconEndpoint /\
  forall k vs,
    validatorSet (refreshed beaconEndpoint answers) !! k = Some vs ->
    k = ToLower (Pubkey (Validator vs)) /\
    IsValidator (refreshed beaconEndpoint answers)
      (Pubkey (Validator vs)) = true.
Proof.
  split.
  - induction answers as [|a answers IH] using rev_ind; [reflexivity|].
    unfold Lifecycle.refreshed in *. rewrite fold_left_app. cbn [fold_left].
    unfold Server.FetchValidators.
    destruct (Server.fetchAllValidators _ _ _ _ _) as [vd [e|]];
      cbn [fst Server.beaconEndpoint]; exact IH.
  - intros k vs Hk.
    pose proof (refreshed_keys beaconEndpoint answers k vs Hk) as Hkey.
    split; [exact Hkey|].
    apply ServerFacts.IsValidator_true. rewrite <- Hkey, Hk. eauto.
Qed.

(** X19: Over the life of a service the count is zero exactly when no pubkey
    is a validator, as long as the mapping has fewer than 2^64 keys. *)
Theorem count_zero_iff_nobody_registered beaconEndpoint answers :
  Z.of_nat (size (validatorSet (refreshed beaconEndpoint answers))) < 2 ^ 64 ->
  NumValidators (refreshed beaconEndpoint answers) = 0 <->
  forall p, IsValidator (refreshed beaconEndpoint answers) p = false.
Proof.
  intros Hsmall. unfold NumValidators.
  rewrite Z.mod_small by lia.
  pose proof (refreshed_keys beaconEndpoint answers) as Hkeys.
  set (b := refreshed beaconEndpoint answers) in *. split.
  - intros Hzero p. apply ServerFacts.IsValidator_false.
    assert (size (validatorSet b) = 0%nat) as Hs by lia.
    apply map_size_empty_iff in Hs. rewrite Hs. apply lookup_empty.
  - intros Hnone.
    destruct (decide (validatorSet b = ∅)) as [He|Hne].
    + rewrite He, map_size_empty. reflexivity.
    + exfalso. apply map_choose in Hne as (k & vs & Hk).
      pose proof (Hkeys k vs Hk) as Hkey.
      pose proof (Hnone (Pubkey (Validator vs))) as Hno.
      apply ServerFacts.IsValidator_false in Hno.
      rewrite <- Hkey, Hk in Hno. discriminate Hno.
Qed.

End Registry.

(** *** The properties at the sample worlds *)

Import Scenario Samples.

Lemma fetchBeacon_without_success_keeps_dst_witness :
  fst (Server.fetchBeacon scan fault_text accepts refuses
         "http://beacon/x" "GET" (zero : allValidatorsResponse)) = zero /\
  exists err,
    snd (Server.fetchBeacon scan fault_text accepts refuses
           "http://beacon/x" "GET" (zero : allValidatorsResponse)) = Some err.
Proof.
  apply fetchBeacon_without_success_keeps_dst.
  intros status bodyBytes [_ Hdo]. discriminate Hdo.
Defined.

Lemma fetchBeacon_error_forms_witness :
  contains
    ("client refused for http://beacon/x: connection refused")
    "http://beacon/x".
Proof.
  destruct (fetchBeacon_error_forms scan fault_text accepts refuses
              "http://beacon/x" "GET" (zero : allValidatorsResponse)
              (wrapError
                 "client refused for http://beacon/x: connection refused"
                 (transportError "connection refused")) eq_refl)
    as [(status & bodyBytes & _ & _ & _ & Hnew)
       |(text & cause & Heq & Hurl & _)].
  - discriminate Hnew.
  - injection Heq as <- _. exact Hurl.
Defined.

Lemma fetchBeacon_invalid_json_witness :
  exists text,
    snd (Server.fetchBeacon scanNone fault_text accepts
           (answers 200 "<html>") "http://beacon/x" "GET"
           (zero : allValidatorsResponse))
    = Some (wrapError text (jsonError SyntaxError)).
Proof.
  apply (fetchBeacon_invalid_json scanNone fault_text accepts
           (answers 200 "<html>") "http://beacon/x" "GET"
           (zero : allValidatorsResponse) 200 "<html>").
  - split; reflexivity.
  - reflexivity.
Defined.

Lemma non_success_without_message_witness :
  Server.fetchBeacon scan fault_text accepts (answers 500 "{}")
    "http://beacon/x" "GET" (zero : allValidatorsResponse)
  = (zero, Some (errors_New EmptyString)).
Proof.
  apply (non_success_without_message scan fault_text accepts
           (answers 500 "{}") "http://beacon/x" "GET"
           (zero : allValidatorsResponse) 500 "{}" []).
  - split; reflexivity.
  - lia.
  - reflexivity.
  - reflexivity.
  - reflexivity.
Defined.

Lemma non_success_misfit_is_decode_error_witness :
  exists text e,
    Server.fetchBeacon
      (scanAs (JObject [("message"%string, JNumber "404")]))
      fault_text accepts (answers 404 "body") "http://beacon/x" "GET"
      (zero : allValidatorsResponse)
    = (zero, Some (wrapError text (jsonError (TypeError e)))).
Proof.
  destruct (non_success_misfit_is_decode_error
              (scanAs (JObject [("message"%string, JNumber "404")]))
              fault_text accepts (answers 404 "body") "http://beacon/x" "GET"
              (zero : allValidatorsResponse) 404 "body"
              [("message"%string, JNumber "404")] "message"
              (JNumber "404"))
    as (text & e & Hfetch & _).
  - split; reflexivity.
  - lia.
  - reflexivity.
  - left. reflexivity.
  - right. split; reflexivity.
  - exists text, e. exact Hfetch.
Defined.

Lemma expected_response_registers_listed_pubkeys_witness :
  Server.IsValidator table
    (fst (Server.FetchValidators table (scanAs beaconJSON) fault_text accepts
            (answers 200 "body") service)) "0xEf" = true.
Proof.
  destruct (expected_response_registers_listed_pubkeys table
              (scanAs beaconJSON) fault_text accepts (answers 200 "body")
              service 200 "body" beaconJSON ["0xAB"; "0xab"; "0xEF"]%string)
    as [_ Hiff].
  - split; reflexivity.
  - lia.
  - reflexivity.
  - reflexivity.
  - apply Hiff. simpl. right. right. left. reflexivity.
Defined.

Lemma count_is_distinct_lowered_pubkeys_witness :
  Server.NumValidators
    (fst (Server.FetchValidators table (scanAs beaconJSON) fault_text accepts
            (answers 200 "body") service))
  <= 3.
Proof.
  apply (count_is_distinct_lowered_pubkeys table (scanAs beaconJSON)
           fault_text accepts (answers 200 "body") service
           {| Data := [entryOf "0xAB"; entryOf "0xab"; entryOf "0xEF"] |}).
  reflexivity.
Defined.


Lemma last_entry_of_a_pubkey_wins_witness :
  validatorSet
    (fst (Server.FetchValidators table (scanAs beaconJSON) fault_text accepts
            (answers 200 "body") service)) !! "0xab"%string
  = Some (entryOf "0xab").
Proof.
  apply (last_entry_of_a_pubkey_wins table (scanAs beaconJSON) fault_text
           accepts (answers 200 "body") service
           {| Data := [entryOf "0xAB"; entryOf "0xab"; entryOf "0xEF"] |}
           [entryOf "0xAB"] (entryOf "0xab") [entryOf "0xEF"]).
  - reflexivity.
  - reflexivity.
  - simpl. intros [H|[]]. discriminate H.
Defined.

Lemma refresh_forgets_previous_mapping_witness :
  Server.FetchValidators table scan fault_text accepts
    (answers 200 singleBody)
    (NewBeaconClientValidatorService "http://beacon")
  = Server.FetchValidators table scan fault_text accepts
      (answers 200 singleBody) service.
Proof.
  apply (refresh_forgets_previous_mapping table scan fault_text accepts
           (answers 200 singleBody) service
           (NewBeaconClientValidatorService "http://beacon")).
  - reflexivity.
  - reflexivity.
Defined.

Lemma data_of_wrong_type_fails_refresh_witness :
  exists text e,
    Server.FetchValidators table
      (scanAs (JObject [("data"%string, JObject [])])) fault_text accepts
      (answers 200 "body") service
    = (service, Some (wrapError text (jsonError (TypeError e)))).
Proof.
  apply (data_of_wrong_type_fails_refresh table
           (scanAs (JObject [("data"%string, JObject [])])) fault_text
           accepts (answers 200 "body") service 200 "body"
           [("data"%string, JObject [])] "data" (JObject [])).
  - split; reflexivity.
  - lia.
  - reflexivity.
  - left. reflexivity.
  - reflexivity.
  - reflexivity.
Defined.

Lemma one_bad_entry_fails_refresh_witness :
  exists text e,
    Server.FetchValidators table
      (scanAs
         (JObject
            [("data"%string,
              JArray
                [JObject
                   [("validator"%string,
                     JObject [("pubkey"%string, JString "0xAB")])];
                 JObject
                   [("validator"%string,
                     JObject [("pubkey"%string, JNumber "171")])]])]))
      fault_text accepts (answers 200 "body") service
    = (service, Some (wrapError text (jsonError (TypeError e)))).
Proof.
  eapply (one_bad_entry_fails_refresh table _ fault_text accepts
            (answers 200 "body") service 200 "body" _ "data" _
            (JObject
               [("validator"%string,
                 JObject [("pubkey"%string, JNumber "171")])])).
  - split; reflexivity.
  - lia.
  - reflexivity.
  - left. reflexivity.
  - reflexivity.
  - right. left. reflexivity.
  - reflexivity.
Defined.

Lemma null_data_installs_empty_registry_witness :
  Server.FetchValidators table
    (scanAs (JObject [("data"%string, JNull)])) fault_text accepts
    (answers 200 "body") service
  = ({| beaconEndpoint := "http://beacon"; validatorSet := ∅ |}, None).
Proof.
  apply (null_data_installs_empty_registry table
           (scanAs (JObject [("data"%string, JNull)])) fault_text accepts
           (answers 200 "body") service 200 "body"
           [("data"%string, JNull)]).
  - split; reflexivity.
  - lia.
  - reflexivity.
  - reflexivity.
Defined.

Lemma entry_without_validator_registers_empty_pubkey_witness :
  Server.IsValidator table
    (fst (Server.FetchValidators table
            (scanAs
               (JObject
                  [("data"%string,
                    JArray [JObject [("index"%string, JString "7")]])]))
            fault_text accepts (answers 200 "body") service))
    EmptyString = true.
Proof.
  apply (entry_without_validator_registers_empty_pubkey table
           (scanAs
              (JObject
                 [("data"%string,
                   JArray [JObject [("index"%string, JString "7")]])]))
           fault_text accepts (answers 200 "body") service 200 "body"
           [("data"%string,
             JArray [JObject [("index"%string, JString "7")]])]
           [JObject [("index"%string, JString "7")]]
           [("index"%string, JString "7")]).
  - split; reflexivity.
  - lia.
  - reflexivity.
  - reflexivity.
  - left. reflexivity.
  - reflexivity.
  - reflexivity.
Defined.

Lemma lowered_pubkey_is_looked_up_alike_witness :
  Server.IsValidator table service (GoString.ToLower table "0xCD")
  = Server.IsValidator table service "0xCD".
Proof.
  apply (lowered_pubkey_is_looked_up_alike table service "0xCD").
  reflexivity.
Defined.

Lemma only_case_variants_are_validators_witness :
  Server.IsValidator table
    (fst (Server.FetchValidators table scan fault_text accepts
            (answers 200 singleBody) service)) "0xCD" = true <->
  exists vs,
    In vs [entryOf "0xAB"] /\ caseVariant "0xCD" (Pubkey (Validator vs)).
Proof.
  apply (only_case_variants_are_validators table scan fault_text accepts
           (answers 200 singleBody) service {| Data := [entryOf "0xAB"] |}
           "0xCD").
  - reflexivity.
  - reflexivity.
  - reflexivity.
Defined.

Lemma count_zero_iff_nobody_registered_witness :
  NumValidators
    (Lifecycle.refreshed table scan fault_text accepts "http://beacon"
       [answers 200 singleBody; answers 200 "{}"]) = 0 <->
  forall p,
    Server.IsValidator table
      (Lifecycle.refreshed table scan fault_text accepts "http://beacon"
         [answers 200 singleBody; answers 200 "{}"]) p = false.
Proof.
  apply (count_zero_iff_nobody_registered table scan fault_text accepts
           "http://beacon" [answers 200 singleBody; answers 200 "{}"]).
  vm_compute. reflexivity.
Defined.

End ServerMore.

(** ** The tables *)

Module DatabaseFacts.

Import Database.

Lemma list_of_append (a b : string) :
  list_ascii_of_string (a +:+ b)
  = list_ascii_of_string a ++ list_ascii_of_string b.
Proof.
  induction a as [|x a IH]; [reflexivity|].
  change (x :: list_ascii_of_string (a +:+ b)
          = x :: (list_ascii_of_string a ++ list_ascii_of_string b)).
  now f_equal.
Qed.

Lemma list_of_inj (a b : string) :
  list_ascii_of_string a = list_ascii_of_string b -> a = b.
Proof.
  intros H. rewrite <- (string_of_list_ascii_of_string a),
    <- (string_of_list_ascii_of_string b). now rewrite H.
Qed.

Lemma list_of_length (a : string) :
  length (list_ascii_of_string a) = String.length a.
Proof. induction a as [|x a IH]; simpl; [reflexivity|]. now rewrite IH. Qed.

(** Names made of a prefix and a suffix agree only when the suffixes
    agree on their last bytes, and then on the rest. *)
Lemma append_tail_inj (p q a1 a2 t1 t2 : string) :
  String.length t1 = String.length t2 ->
  p +:+ a1 +:+ t1 = q +:+ a2 +:+ t2 ->
  p +:+ a1 = q +:+ a2 /\ t1 = t2.
Proof.
  intros Hlen Heq. apply (f_equal list_ascii_of_string) in Heq.
  rewrite !list_of_append, !(assoc_L (++)) in Heq.
  apply app_inj_2 in Heq as [H1 H2].
  - split; apply list_of_inj; [now rewrite !list_of_append|assumption].
  - now rewrite !list_of_length.
Qed.

Lemma append_inv_tail (p q s : string) : p +:+ s = q +:+ s -> p = q.
Proof.
  intros Heq. apply (f_equal list_ascii_of_string) in Heq.
  rewrite !list_of_append in Heq. apply app_inv_tail in Heq.
  now apply list_of_inj.
Qed.

(** X20: The tables never share a name: two names of the schema are the same
    only for the same table under the same prefix, whatever the prefixes
    configured; in particular the four tables of one prefix are four. *)
Theorem table_names_never_collide p q t u :
  tableName p t = tableName q u <-> p = q /\ t = u.
Proof.
  split; [|now intros [-> ->]].
  destruct t, u; unfold tableName, TableValidatorRegistration,
    TableBuilderBlockSubmission, TableBuilderBlockSimResult,
    TableDeliveredPayload; intros Heq;
    try (apply append_inv_tail in Heq; now split).
  all: exfalso.
  all: repeat match type of Heq with
         | context [?x +:+ "_validator_registration"] =>
           change (x +:+ "_validator_registration")
             with (x +:+ "_validator_registra" +:+ "tion") in Heq
         | context [?x +:+ "_builder_block_submission"] =>
           change (x +:+ "_builder_block_submission")
             with (x +:+ "_builder_block_submis" +:+ "sion") in Heq
         | context [?x +:+ "_builder_block_sim_result"] =>
           change (x +:+ "_builder_block_sim_result")
             with (x +:+ "_builder_block_sim_re" +:+ "sult") in Heq
         | context [?x +:+ "_payload_delivered"] =>
           change (x +:+ "_payload_delivered")
             with (x +:+ "_payload_deliv" +:+ "ered") in Heq
         end.
  all: apply append_tail_inj in Heq as [_ Ht]; [discriminate Ht|reflexivity].
Qed.

End DatabaseFacts.

(** ** The request the cache test builds *)

Module DatastoreTestFacts.

Import DatastoreTest.

(** X21: Only the Capella version gives a request: for every other version,
    those of Bellatrix and Deneb among them, the request built is the
    empty one, with no submission in it. *)
Theorem only_capella_builds_a_request phase0 altair bellatrix capella deneb
    pubkey signature version :
  Capella
    (testBuilderSubmitBlockRequest phase0 altair bellatrix capella deneb
       pubkey signature version) <> None
  <-> version = capella.
Proof.
  unfold testBuilderSubmitBlockRequest.
  destruct (Z.eqb_spec version capella) as [->|Hne].
  - split; [reflexivity|discriminate].
  - split; [|contradiction].
    destruct (version =? deneb);
      destruct ((version =? phase0) || (version =? altair)
                || (version =? bellatrix)); simpl; contradiction.
Qed.

End DatastoreTestFacts.
